(** * britney2.excuse: the Excuse record and its two renderings

    A shallow embedding of [britney2/excuse.py].  Python values are
    modelled as follows:
    - [str] as [string], compared the way Python compares [str] (by code
      point, which for the byte strings used here is [String.leb]);
    - [int] as [Z], [None]-able attributes as [option];
    - a [set] of strings as stdpp's [gset string];
    - a [dict] as an association list in insertion order (Python dicts
      iterate in insertion order and [_render_dep_issues] depends on it);
    - a raised exception as the [Raise] branch of [result]. *)

From Stdlib Require Import ZArith List Bool Ascii String DecimalString.
From Stdlib Require Import Sorting.Sorted Sorting.Permutation Lia.
From stdpp Require Import base decidable gmap sets list strings.
Import ListNotations.

Open Scope string_scope.
Open Scope Z_scope.

(** ** Python primitives used by the module *)

Module Py.

Inductive exn := IndexError | TypeError | UnboundLocalError.

Inductive result (A : Type) :=
| Ok (a : A)
| Raise (e : exn).
Arguments Ok {A} a.
Arguments Raise {A} e.

Definition bind {A B} (r : result A) (k : A -> result B) : result B :=
  match r with
  | Ok a => k a
  | Raise e => Raise e
  end.

(** Characters that cannot be written inside a string literal. *)
Definition nl : string := String (ascii_of_nat 10) EmptyString.
Definition dq : string := String (ascii_of_nat 34) EmptyString.

(** [c in s] for a one-character [c]. *)
Fixpoint contains (c : ascii) (s : string) : bool :=
  match s with
  | EmptyString => false
  | String x s' => if Ascii.eqb x c then true else contains c s'
  end.

(** [s.split(c)] for a one-character separator: never empty. *)
Fixpoint split (c : ascii) (s : string) : list string :=
  match s with
  | EmptyString => [EmptyString]
  | String x s' =>
      if Ascii.eqb x c then EmptyString :: split c s'
      else match split c s' with
           | w :: ws => String x w :: ws
           | [] => [String x EmptyString]
           end
  end.

(** [s.find(c)]: the index of the first occurrence, or -1. *)
Fixpoint find (c : ascii) (s : string) : Z :=
  match s with
  | EmptyString => -1
  | String x s' =>
      if Ascii.eqb x c then 0
      else let i := find c s' in if i <? 0 then -1 else i + 1
  end.

(** [s[0]] and [s[1:]] on a string. *)
Definition char0 (s : string) : result ascii :=
  match s with
  | String x _ => Ok x
  | EmptyString => Raise IndexError
  end.

Definition slice1 (s : string) : string :=
  match s with
  | String _ s' => s'
  | EmptyString => EmptyString
  end.

(** Truth value of a string and of an optional string ([None] and the
    empty string are false). *)
Definition truthy (s : string) : bool :=
  match s with EmptyString => false | String _ _ => true end.

Definition truthy_opt (o : option string) : bool :=
  match o with Some s => truthy s | None => false end.

(** ["%d" % z]. *)
Definition fmt_d (z : Z) : string := NilZero.string_of_int (Z.to_int z).

(** [sorted(l, key=key)]: Python's sort is stable, and so is this
    insertion sort, so the two agree on every input. *)
Section Sorted.
Context {A K : Type} (leb : K -> K -> bool) (key : A -> K).

Fixpoint insert_by (x : A) (l : list A) : list A :=
  match l with
  | [] => [x]
  | y :: l' =>
      if leb (key x) (key y) then x :: y :: l' else y :: insert_by x l'
  end.

Fixpoint sorted_by (l : list A) : list A :=
  match l with
  | [] => []
  | x :: l' => insert_by x (sorted_by l')
  end.
End Sorted.

(** [sorted(l)] on strings, and on a set of strings. *)
Definition sorted (l : list string) : list string :=
  sorted_by String.leb (fun s => s) l.

Definition sorted_set (s : gset string) : list string :=
  sorted (elements s).

(** Comparison of the [(int, str)] tuples returned by [sortkey]. *)
Definition tuple_leb (a b : Z * string) : bool :=
  (fst a <? fst b) || ((fst a =? fst b) && String.leb (snd a) (snd b)).

(** Dictionaries: association lists in insertion order. *)
Section Dict.
Context {K V : Type} `{EqDecision K}.

Fixpoint dict_get (k : K) (d : list (K * V)) : option V :=
  match d with
  | [] => None
  | (k', v) :: d' => if decide (k' = k) then Some v else dict_get k d'
  end.

Definition dict_mem (k : K) (d : list (K * V)) : bool :=
  match dict_get k d with Some _ => true | None => false end.

(** [d[k] = v]: an existing key keeps its position. *)
Fixpoint dict_set (k : K) (v : V) (d : list (K * V)) : list (K * V) :=
  match d with
  | [] => [(k, v)]
  | (k', v') :: d' =>
      if decide (k' = k) then (k, v) :: d' else (k', v') :: dict_set k v d'
  end.

Definition dict_keys (d : list (K * V)) : list K := map fst d.
End Dict.

(** [l.append(x)] and [x in l] on lists. *)
Definition append {A} (l : list A) (x : A) : list A := (l ++ [x])%list.

Definition list_mem {A} `{EqDecision A} (x : A) (l : list A) : bool :=
  bool_decide (x ∈ l).

(** The values a rendered document can hold. *)
#[local] Unset Elimination Schemes.
Inductive value :=
| VStr (s : string)
| VBool (b : bool)
| VList (l : list value)
| VDict (d : list (string * value)).
#[local] Set Elimination Schemes.

End Py.
Import Py.

Notation "'let*' x ':=' r 'in' k" := (Py.bind r (fun x => k))
  (at level 10, x name, r at level 100, k at level 200).

(** ** External collaborators *)

(** Modelled from the spec: the [PolicyVerdict] enumeration lives in
    [britney2/policies/policy.py], which is not part of this module.  Its
    members are the ones named by the [VERDICT2DESC] table below; the spec
    calls it a closed enumeration of outcomes (pass, pass-by-hint and the
    rejected-... outcomes) with an [is_rejected] classification, under
    which exactly the rejected-... outcomes are rejections. *)
Inductive PolicyVerdict :=
| PASS
| PASS_HINTED
| REJECTED_TEMPORARILY
| REJECTED_WAITING_FOR_ANOTHER_ITEM
| REJECTED_BLOCKED_BY_ANOTHER_ITEM
| REJECTED_NEEDS_APPROVAL
| REJECTED_CANNOT_DETERMINE_IF_PERMANENT
| REJECTED_PERMANENTLY.

#[global] Instance PolicyVerdict_eq_dec : EqDecision PolicyVerdict.
Proof. solve_decision. Defined.

Definition is_rejected (v : PolicyVerdict) : bool :=
  match v with
  | PASS | PASS_HINTED => false
  | _ => true
  end.

(** [verdict.name]: the member's symbolic name. *)
Definition verdict_name (v : PolicyVerdict) : string :=
  match v with
  | PASS => "PASS"
  | PASS_HINTED => "PASS_HINTED"
  | REJECTED_TEMPORARILY => "REJECTED_TEMPORARILY"
  | REJECTED_WAITING_FOR_ANOTHER_ITEM => "REJECTED_WAITING_FOR_ANOTHER_ITEM"
  | REJECTED_BLOCKED_BY_ANOTHER_ITEM => "REJECTED_BLOCKED_BY_ANOTHER_ITEM"
  | REJECTED_NEEDS_APPROVAL => "REJECTED_NEEDS_APPROVAL"
  | REJECTED_CANNOT_DETERMINE_IF_PERMANENT =>
      "REJECTED_CANNOT_DETERMINE_IF_PERMANENT"
  | REJECTED_PERMANENTLY => "REJECTED_PERMANENTLY"
  end.

(** Modelled from the spec: [britney2.DependencyType] is not part of this
    module.  The spec asks for a dependency-kind enumeration that
    distinguishes "depends" from the other relation kinds; a kind other
    than [DEPENDS] is represented by its display form, the text [str(kind)]
    gives. *)
Inductive DependencyType :=
| DEPENDS
| OTHER_KIND (display : string).

#[global] Instance DependencyType_eq_dec : EqDecision DependencyType.
Proof. solve_decision. Defined.

Definition deptype_str (t : DependencyType) : string :=
  match t with
  | DEPENDS => "Depends"
  | OTHER_KIND display => display
  end.

(** Modelled from the spec: hint objects come from the hint subsystem;
    this module reads only their kind tag ([h.type]) and the attributing
    user ([h.user]). *)
Record Hint := { hint_type : string; hint_user : string }.

(** ** The verdict descriptions *)

Definition VERDICT2DESC : list (PolicyVerdict * string) :=
  [ (PASS,
     "Will attempt migration (Any information below is purely informational)");
    (PASS_HINTED,
     "Will attempt migration due to a hint (Any information below is purely informational)");
    (REJECTED_TEMPORARILY,
     "Waiting for test results, another package or too young (no action required now - check later)");
    (REJECTED_WAITING_FOR_ANOTHER_ITEM,
     "Waiting for another item to be ready to migrate (no action required now - check later)");
    (REJECTED_BLOCKED_BY_ANOTHER_ITEM,
     "BLOCKED: Cannot migrate due to another item, which is blocked (please check which dependencies are stuck)");
    (REJECTED_NEEDS_APPROVAL,
     "BLOCKED: Needs an approval (either due to a freeze, the source suite or a manual hint)");
    (REJECTED_CANNOT_DETERMINE_IF_PERMANENT,
     "BLOCKED: Maybe temporary, maybe blocked but Britney is missing information (check below or the buildds)");
    (REJECTED_PERMANENTLY,
     "BLOCKED: Rejected/introduces a regression") ].

(** ** The Excuse class *)

Record Excuse := {
  name : string;
  ver : string * string;
  maint : option string;
  daysold : option Z;
  mindays : option Z;
  section : option string;
  _is_valid : bool;
  needs_approval : bool;
  hints : list Hint;
  forced : bool;
  _policy_verdict : PolicyVerdict;
  all_invalid_deps : gset string;
  all_deps : list (string * list (DependencyType * list string));
  sane_deps : list string;
  break_deps : list (string * string);
  unsatisfiable_on_archs : list string;
  unsat_deps : list (string * gset string);
  newbugs : gset string;
  oldbugs : gset string;
  reason : list (string * Z);
  htmlline : list string;
  missing_builds : gset string;
  missing_builds_ood_arch : gset string;
  old_binaries : list (string * gset string);
  policy_info : list (string * value);
  bounty : list (string * Z);
  penalty : list (string * Z)
}.

(** Attribute assignment, one function per attribute the module writes. *)

Definition with_ver (x : string * string) (e : Excuse) : Excuse :=
  {| name := name e; ver := x; maint := maint e; daysold := daysold e;
    mindays := mindays e; section := section e; _is_valid := _is_valid e;
    needs_approval := needs_approval e; hints := hints e; forced := forced e;
    _policy_verdict := _policy_verdict e;
    all_invalid_deps := all_invalid_deps e; all_deps := all_deps e;
    sane_deps := sane_deps e; break_deps := break_deps e;
    unsatisfiable_on_archs := unsatisfiable_on_archs e;
    unsat_deps := unsat_deps e; newbugs := newbugs e; oldbugs := oldbugs e;
    reason := reason e; htmlline := htmlline e;
    missing_builds := missing_builds e;
    missing_builds_ood_arch := missing_builds_ood_arch e;
    old_binaries := old_binaries e; policy_info := policy_info e;
    bounty := bounty e; penalty := penalty e |}.

Definition with_maint (x : option string) (e : Excuse) : Excuse :=
  {| name := name e; ver := ver e; maint := x; daysold := daysold e;
    mindays := mindays e; section := section e; _is_valid := _is_valid e;
    needs_approval := needs_approval e; hints := hints e; forced := forced e;
    _policy_verdict := _policy_verdict e;
    all_invalid_deps := all_invalid_deps e; all_deps := all_deps e;
    sane_deps := sane_deps e; break_deps := break_deps e;
    unsatisfiable_on_archs := unsatisfiable_on_archs e;
    unsat_deps := unsat_deps e; newbugs := newbugs e; oldbugs := oldbugs e;
    reason := reason e; htmlline := htmlline e;
    missing_builds := missing_builds e;
    missing_builds_ood_arch := missing_builds_ood_arch e;
    old_binaries := old_binaries e; policy_info := policy_info e;
    bounty := bounty e; penalty := penalty e |}.

Definition with_section (x : option string) (e : Excuse) : Excuse :=
  {| name := name e; ver := ver e; maint := maint e; daysold := daysold e;
    mindays := mindays e; section := x; _is_valid := _is_valid e;
    needs_approval := needs_approval e; hints := hints e; forced := forced e;
    _policy_verdict := _policy_verdict e;
    all_invalid_deps := all_invalid_deps e; all_deps := all_deps e;
    sane_deps := sane_deps e; break_deps := break_deps e;
    unsatisfiable_on_archs := unsatisfiable_on_archs e;
    unsat_deps := unsat_deps e; newbugs := newbugs e; oldbugs := oldbugs e;
    reason := reason e; htmlline := htmlline e;
    missing_builds := missing_builds e;
    missing_builds_ood_arch := missing_builds_ood_arch e;
    old_binaries := old_binaries e; policy_info := policy_info e;
    bounty := bounty e; penalty := penalty e |}.

Definition with_daysold_and_mindays (x0 : option Z) (x1 : option Z) (e : Excuse) : Excuse :=
  {| name := name e; ver := ver e; maint := maint e; daysold := x0;
    mindays := x1; section := section e; _is_valid := _is_valid e;
    needs_approval := needs_approval e; hints := hints e; forced := forced e;
    _policy_verdict := _policy_verdict e;
    all_invalid_deps := all_invalid_deps e; all_deps := all_deps e;
    sane_deps := sane_deps e; break_deps := break_deps e;
    unsatisfiable_on_archs := unsatisfiable_on_archs e;
    unsat_deps := unsat_deps e; newbugs := newbugs e; oldbugs := oldbugs e;
    reason := reason e; htmlline := htmlline e;
    missing_builds := missing_builds e;
    missing_builds_ood_arch := missing_builds_ood_arch e;
    old_binaries := old_binaries e; policy_info := policy_info e;
    bounty := bounty e; penalty := penalty e |}.

Definition with_needs_approval (x : bool) (e : Excuse) : Excuse :=
  {| name := name e; ver := ver e; maint := maint e; daysold := daysold e;
    mindays := mindays e; section := section e; _is_valid := _is_valid e;
    needs_approval := x; hints := hints e; forced := forced e;
    _policy_verdict := _policy_verdict e;
    all_invalid_deps := all_invalid_deps e; all_deps := all_deps e;
    sane_deps := sane_deps e; break_deps := break_deps e;
    unsatisfiable_on_archs := unsatisfiable_on_archs e;
    unsat_deps := unsat_deps e; newbugs := newbugs e; oldbugs := oldbugs e;
    reason := reason e; htmlline := htmlline e;
    missing_builds := missing_builds e;
    missing_builds_ood_arch := missing_builds_ood_arch e;
    old_binaries := old_binaries e; policy_info := policy_info e;
    bounty := bounty e; penalty := penalty e |}.

Definition with_hints (x : list Hint) (e : Excuse) : Excuse :=
  {| name := name e; ver := ver e; maint := maint e; daysold := daysold e;
    mindays := mindays e; section := section e; _is_valid := _is_valid e;
    needs_approval := needs_approval e; hints := x; forced := forced e;
    _policy_verdict := _policy_verdict e;
    all_invalid_deps := all_invalid_deps e; all_deps := all_deps e;
    sane_deps := sane_deps e; break_deps := break_deps e;
    unsatisfiable_on_archs := unsatisfiable_on_archs e;
    unsat_deps := unsat_deps e; newbugs := newbugs e; oldbugs := oldbugs e;
    reason := reason e; htmlline := htmlline e;
    missing_builds := missing_builds e;
    missing_builds_ood_arch := missing_builds_ood_arch e;
    old_binaries := old_binaries e; policy_info := policy_info e;
    bounty := bounty e; penalty := penalty e |}.

Definition with_forced (x : bool) (e : Excuse) : Excuse :=
  {| name := name e; ver := ver e; maint := maint e; daysold := daysold e;
    mindays := mindays e; section := section e; _is_valid := _is_valid e;
    needs_approval := needs_approval e; hints := hints e; forced := x;
    _policy_verdict := _policy_verdict e;
    all_invalid_deps := all_invalid_deps e; all_deps := all_deps e;
    sane_deps := sane_deps e; break_deps := break_deps e;
    unsatisfiable_on_archs := unsatisfiable_on_archs e;
    unsat_deps := unsat_deps e; newbugs := newbugs e; oldbugs := oldbugs e;
    reason := reason e; htmlline := htmlline e;
    missing_builds := missing_builds e;
    missing_builds_ood_arch := missing_builds_ood_arch e;
    old_binaries := old_binaries e; policy_info := policy_info e;
    bounty := bounty e; penalty := penalty e |}.

Definition with_policy_verdict (x : PolicyVerdict) (e : Excuse) : Excuse :=
  {| name := name e; ver := ver e; maint := maint e; daysold := daysold e;
    mindays := mindays e; section := section e; _is_valid := _is_valid e;
    needs_approval := needs_approval e; hints := hints e; forced := forced e;
    _policy_verdict := x; all_invalid_deps := all_invalid_deps e;
    all_deps := all_deps e; sane_deps := sane_deps e;
    break_deps := break_deps e;
    unsatisfiable_on_archs := unsatisfiable_on_archs e;
    unsat_deps := unsat_deps e; newbugs := newbugs e; oldbugs := oldbugs e;
    reason := reason e; htmlline := htmlline e;
    missing_builds := missing_builds e;
    missing_builds_ood_arch := missing_builds_ood_arch e;
    old_binaries := old_binaries e; policy_info := policy_info e;
    bounty := bounty e; penalty := penalty e |}.

Definition with_all_invalid_deps (x : gset string) (e : Excuse) : Excuse :=
  {| name := name e; ver := ver e; maint := maint e; daysold := daysold e;
    mindays := mindays e; section := section e; _is_valid := _is_valid e;
    needs_approval := needs_approval e; hints := hints e; forced := forced e;
    _policy_verdict := _policy_verdict e; all_invalid_deps := x;
    all_deps := all_deps e; sane_deps := sane_deps e;
    break_deps := break_deps e;
    unsatisfiable_on_archs := unsatisfiable_on_archs e;
    unsat_deps := unsat_deps e; newbugs := newbugs e; oldbugs := oldbugs e;
    reason := reason e; htmlline := htmlline e;
    missing_builds := missing_builds e;
    missing_builds_ood_arch := missing_builds_ood_arch e;
    old_binaries := old_binaries e; policy_info := policy_info e;
    bounty := bounty e; penalty := penalty e |}.

Definition with_all_deps (x : list (string * list (DependencyType * list string))) (e : Excuse) : Excuse :=
  {| name := name e; ver := ver e; maint := maint e; daysold := daysold e;
    mindays := mindays e; section := section e; _is_valid := _is_valid e;
    needs_approval := needs_approval e; hints := hints e; forced := forced e;
    _policy_verdict := _policy_verdict e;
    all_invalid_deps := all_invalid_deps e; all_deps := x;
    sane_deps := sane_deps e; break_deps := break_deps e;
    unsatisfiable_on_archs := unsatisfiable_on_archs e;
    unsat_deps := unsat_deps e; newbugs := newbugs e; oldbugs := oldbugs e;
    reason := reason e; htmlline := htmlline e;
    missing_builds := missing_builds e;
    missing_builds_ood_arch := missing_builds_ood_arch e;
    old_binaries := old_binaries e; policy_info := policy_info e;
    bounty := bounty e; penalty := penalty e |}.

Definition with_sane_deps (x : list string) (e : Excuse) : Excuse :=
  {| name := name e; ver := ver e; maint := maint e; daysold := daysold e;
    mindays := mindays e; section := section e; _is_valid := _is_valid e;
    needs_approval := needs_approval e; hints := hints e; forced := forced e;
    _policy_verdict := _policy_verdict e;
    all_invalid_deps := all_invalid_deps e; all_deps := all_deps e;
    sane_deps := x; break_deps := break_deps e;
    unsatisfiable_on_archs := unsatisfiable_on_archs e;
    unsat_deps := unsat_deps e; newbugs := newbugs e; oldbugs := oldbugs e;
    reason := reason e; htmlline := htmlline e;
    missing_builds := missing_builds e;
    missing_builds_ood_arch := missing_builds_ood_arch e;
    old_binaries := old_binaries e; policy_info := policy_info e;
    bounty := bounty e; penalty := penalty e |}.

Definition with_break_deps (x : list (string * string)) (e : Excuse) : Excuse :=
  {| name := name e; ver := ver e; maint := maint e; daysold := daysold e;
    mindays := mindays e; section := section e; _is_valid := _is_valid e;
    needs_approval := needs_approval e; hints := hints e; forced := forced e;
    _policy_verdict := _policy_verdict e;
    all_invalid_deps := all_invalid_deps e; all_deps := all_deps e;
    sane_deps := sane_deps e; break_deps := x;
    unsatisfiable_on_archs := unsatisfiable_on_archs e;
    unsat_deps := unsat_deps e; newbugs := newbugs e; oldbugs := oldbugs e;
    reason := reason e; htmlline := htmlline e;
    missing_builds := missing_builds e;
    missing_builds_ood_arch := missing_builds_ood_arch e;
    old_binaries := old_binaries e; policy_info := policy_info e;
    bounty := bounty e; penalty := penalty e |}.

Definition with_unsatisfiable_on_archs (x : list string) (e : Excuse) : Excuse :=
  {| name := name e; ver := ver e; maint := maint e; daysold := daysold e;
    mindays := mindays e; section := section e; _is_valid := _is_valid e;
    needs_approval := needs_approval e; hints := hints e; forced := forced e;
    _policy_verdict := _policy_verdict e;
    all_invalid_deps := all_invalid_deps e; all_deps := all_deps e;
    sane_deps := sane_deps e; break_deps := break_deps e;
    unsatisfiable_on_archs := x; unsat_deps := unsat_deps e;
    newbugs := newbugs e; oldbugs := oldbugs e; reason := reason e;
    htmlline := htmlline e; missing_builds := missing_builds e;
    missing_builds_ood_arch := missing_builds_ood_arch e;
    old_binaries := old_binaries e; policy_info := policy_info e;
    bounty := bounty e; penalty := penalty e |}.

Definition with_unsat_deps (x : list (string * gset string)) (e : Excuse) : Excuse :=
  {| name := name e; ver := ver e; maint := maint e; daysold := daysold e;
    mindays := mindays e; section := section e; _is_valid := _is_valid e;
    needs_approval := needs_approval e; hints := hints e; forced := forced e;
    _policy_verdict := _policy_verdict e;
    all_invalid_deps := all_invalid_deps e; all_deps := all_deps e;
    sane_deps := sane_deps e; break_deps := break_deps e;
    unsatisfiable_on_archs := unsatisfiable_on_archs e; unsat_deps := x;
    newbugs := newbugs e; oldbugs := oldbugs e; reason := reason e;
    htmlline := htmlline e; missing_builds := missing_builds e;
    missing_builds_ood_arch := missing_builds_ood_arch e;
    old_binaries := old_binaries e; policy_info := policy_info e;
    bounty := bounty e; penalty := penalty e |}.

Definition with_newbugs (x : gset string) (e : Excuse) : Excuse :=
  {| name := name e; ver := ver e; maint := maint e; daysold := daysold e;
    mindays := mindays e; section := section e; _is_valid := _is_valid e;
    needs_approval := needs_approval e; hints := hints e; forced := forced e;
    _policy_verdict := _policy_verdict e;
    all_invalid_deps := all_invalid_deps e; all_deps := all_deps e;
    sane_deps := sane_deps e; break_deps := break_deps e;
    unsatisfiable_on_archs := unsatisfiable_on_archs e;
    unsat_deps := unsat_deps e; newbugs := x; oldbugs := oldbugs e;
    reason := reason e; htmlline := htmlline e;
    missing_builds := missing_builds e;
    missing_builds_ood_arch := missing_builds_ood_arch e;
    old_binaries := old_binaries e; policy_info := policy_info e;
    bounty := bounty e; penalty := penalty e |}.

Definition with_oldbugs (x : gset string) (e : Excuse) : Excuse :=
  {| name := name e; ver := ver e; maint := maint e; daysold := daysold e;
    mindays := mindays e; section := section e; _is_valid := _is_valid e;
    needs_approval := needs_approval e; hints := hints e; forced := forced e;
    _policy_verdict := _policy_verdict e;
    all_invalid_deps := all_invalid_deps e; all_deps := all_deps e;
    sane_deps := sane_deps e; break_deps := break_deps e;
    unsatisfiable_on_archs := unsatisfiable_on_archs e;
    unsat_deps := unsat_deps e; newbugs := newbugs e; oldbugs := x;
    reason := reason e; htmlline := htmlline e;
    missing_builds := missing_builds e;
    missing_builds_ood_arch := missing_builds_ood_arch e;
    old_binaries := old_binaries e; policy_info := policy_info e;
    bounty := bounty e; penalty := penalty e |}.

Definition with_reason (x : list (string * Z)) (e : Excuse) : Excuse :=
  {| name := name e; ver := ver e; maint := maint e; daysold := daysold e;
    mindays := mindays e; section := section e; _is_valid := _is_valid e;
    needs_approval := needs_approval e; hints := hints e; forced := forced e;
    _policy_verdict := _policy_verdict e;
    all_invalid_deps := all_invalid_deps e; all_deps := all_deps e;
    sane_deps := sane_deps e; break_deps := break_deps e;
    unsatisfiable_on_archs := unsatisfiable_on_archs e;
    unsat_deps := unsat_deps e; newbugs := newbugs e; oldbugs := oldbugs e;
    reason := x; htmlline := htmlline e; missing_builds := missing_builds e;
    missing_builds_ood_arch := missing_builds_ood_arch e;
    old_binaries := old_binaries e; policy_info := policy_info e;
    bounty := bounty e; penalty := penalty e |}.

Definition with_htmlline (x : list string) (e : Excuse) : Excuse :=
  {| name := name e; ver := ver e; maint := maint e; daysold := daysold e;
    mindays := mindays e; section := section e; _is_valid := _is_valid e;
    needs_approval := needs_approval e; hints := hints e; forced := forced e;
    _policy_verdict := _policy_verdict e;
    all_invalid_deps := all_invalid_deps e; all_deps := all_deps e;
    sane_deps := sane_deps e; break_deps := break_deps e;
    unsatisfiable_on_archs := unsatisfiable_on_archs e;
    unsat_deps := unsat_deps e; newbugs := newbugs e; oldbugs := oldbugs e;
    reason := reason e; htmlline := x; missing_builds := missing_builds e;
    missing_builds_ood_arch := missing_builds_ood_arch e;
    old_binaries := old_binaries e; policy_info := policy_info e;
    bounty := bounty e; penalty := penalty e |}.

Definition with_missing_builds (x : gset string) (e : Excuse) : Excuse :=
  {| name := name e; ver := ver e; maint := maint e; daysold := daysold e;
    mindays := mindays e; section := section e; _is_valid := _is_valid e;
    needs_approval := needs_approval e; hints := hints e; forced := forced e;
    _policy_verdict := _policy_verdict e;
    all_invalid_deps := all_invalid_deps e; all_deps := all_deps e;
    sane_deps := sane_deps e; break_deps := break_deps e;
    unsatisfiable_on_archs := unsatisfiable_on_archs e;
    unsat_deps := unsat_deps e; newbugs := newbugs e; oldbugs := oldbugs e;
    reason := reason e; htmlline := htmlline e; missing_builds := x;
    missing_builds_ood_arch := missing_builds_ood_arch e;
    old_binaries := old_binaries e; policy_info := policy_info e;
    bounty := bounty e; penalty := penalty e |}.

Definition with_old_binaries (x : list (string * gset string)) (e : Excuse) : Excuse :=
  {| name := name e; ver := ver e; maint := maint e; daysold := daysold e;
    mindays := mindays e; section := section e; _is_valid := _is_valid e;
    needs_approval := needs_approval e; hints := hints e; forced := forced e;
    _policy_verdict := _policy_verdict e;
    all_invalid_deps := all_invalid_deps e; all_deps := all_deps e;
    sane_deps := sane_deps e; break_deps := break_deps e;
    unsatisfiable_on_archs := unsatisfiable_on_archs e;
    unsat_deps := unsat_deps e; newbugs := newbugs e; oldbugs := oldbugs e;
    reason := reason e; htmlline := htmlline e;
    missing_builds := missing_builds e;
    missing_builds_ood_arch := missing_builds_ood_arch e; old_binaries := x;
    policy_info := policy_info e; bounty := bounty e; penalty := penalty e |}.

Definition with_policy_info (x : list (string * value)) (e : Excuse) : Excuse :=
  {| name := name e; ver := ver e; maint := maint e; daysold := daysold e;
    mindays := mindays e; section := section e; _is_valid := _is_valid e;
    needs_approval := needs_approval e; hints := hints e; forced := forced e;
    _policy_verdict := _policy_verdict e;
    all_invalid_deps := all_invalid_deps e; all_deps := all_deps e;
    sane_deps := sane_deps e; break_deps := break_deps e;
    unsatisfiable_on_archs := unsatisfiable_on_archs e;
    unsat_deps := unsat_deps e; newbugs := newbugs e; oldbugs := oldbugs e;
    reason := reason e; htmlline := htmlline e;
    missing_builds := missing_builds e;
    missing_builds_ood_arch := missing_builds_ood_arch e;
    old_binaries := old_binaries e; policy_info := x; bounty := bounty e;
    penalty := penalty e |}.

Definition with_bounty (x : list (string * Z)) (e : Excuse) : Excuse :=
  {| name := name e; ver := ver e; maint := maint e; daysold := daysold e;
    mindays := mindays e; section := section e; _is_valid := _is_valid e;
    needs_approval := needs_approval e; hints := hints e; forced := forced e;
    _policy_verdict := _policy_verdict e;
    all_invalid_deps := all_invalid_deps e; all_deps := all_deps e;
    sane_deps := sane_deps e; break_deps := break_deps e;
    unsatisfiable_on_archs := unsatisfiable_on_archs e;
    unsat_deps := unsat_deps e; newbugs := newbugs e; oldbugs := oldbugs e;
    reason := reason e; htmlline := htmlline e;
    missing_builds := missing_builds e;
    missing_builds_ood_arch := missing_builds_ood_arch e;
    old_binaries := old_binaries e; policy_info := policy_info e; bounty := x;
    penalty := penalty e |}.

Definition with_penalty (x : list (string * Z)) (e : Excuse) : Excuse :=
  {| name := name e; ver := ver e; maint := maint e; daysold := daysold e;
    mindays := mindays e; section := section e; _is_valid := _is_valid e;
    needs_approval := needs_approval e; hints := hints e; forced := forced e;
    _policy_verdict := _policy_verdict e;
    all_invalid_deps := all_invalid_deps e; all_deps := all_deps e;
    sane_deps := sane_deps e; break_deps := break_deps e;
    unsatisfiable_on_archs := unsatisfiable_on_archs e;
    unsat_deps := unsat_deps e; newbugs := newbugs e; oldbugs := oldbugs e;
    reason := reason e; htmlline := htmlline e;
    missing_builds := missing_builds e;
    missing_builds_ood_arch := missing_builds_ood_arch e;
    old_binaries := old_binaries e; policy_info := policy_info e;
    bounty := bounty e; penalty := x |}.

(** ** Construction and the simple methods *)

Definition __init__ (name : string) : Excuse :=
  {| name := name; ver := ("-", "-"); maint := None; daysold := None;
     mindays := None; section := None; _is_valid := false;
     needs_approval := false; hints := []; forced := false;
     _policy_verdict := REJECTED_PERMANENTLY; all_invalid_deps := ∅;
     all_deps := []; sane_deps := []; break_deps := [];
     unsatisfiable_on_archs := []; unsat_deps := []; newbugs := ∅;
     oldbugs := ∅; reason := []; htmlline := []; missing_builds := ∅;
     missing_builds_ood_arch := ∅; old_binaries := []; policy_info := [];
     bounty := []; penalty := [] |}.

Definition sortkey (e : Excuse) : Z * string :=
  match daysold e with
  | None => (-1, name e)
  | Some d => (d, name e)
  end.

(** The [is_valid] property. *)
Definition is_valid (e : Excuse) : bool :=
  if is_rejected (_policy_verdict e) then false else true.

(** The [policy_verdict] property: getter and setter. *)
Definition policy_verdict (e : Excuse) : PolicyVerdict := _policy_verdict e.

Definition set_policy_verdict (value : PolicyVerdict) (e : Excuse) : Excuse :=
  let value := if is_rejected value && forced e then PASS_HINTED else value in
  with_policy_verdict value e.

(** [set_vers]: an argument is [None] or a string; both [None] and the
    empty string are false. *)
Definition set_vers (tver uver : option string) (e : Excuse) : Excuse :=
  let str o := default EmptyString o in
  if truthy_opt tver && truthy_opt uver then with_ver (str tver, str uver) e
  else if truthy_opt tver then with_ver (str tver, snd (ver e)) e
  else if truthy_opt uver then with_ver (fst (ver e), str uver) e
  else e.

(** [reemail = re.compile(r" *<.*?>")].  [dot_lazy_gt s] is the length of
    the match of [.*?>] at the start of [s]: up to the first [>], with no
    newline before it. *)
Fixpoint dot_lazy_gt (s : string) : option nat :=
  match s with
  | EmptyString => None
  | String c s' =>
      if Ascii.eqb c ">" then Some 1%nat
      else if Ascii.eqb c (ascii_of_nat 10) then None
      else S <$> dot_lazy_gt s'
  end.

(** The length of the match of the whole pattern at the start of [s]. *)
Fixpoint reemail_match (s : string) : option nat :=
  match s with
  | EmptyString => None
  | String c s' =>
      if Ascii.eqb c " " then S <$> reemail_match s'
      else if Ascii.eqb c "<" then S <$> dot_lazy_gt s'
      else None
  end.

(** [reemail.sub("", s)]: [skip] counts the characters of the current
    match that are still to be dropped. *)
Fixpoint reemail_sub (skip : nat) (s : string) : string :=
  match s with
  | EmptyString => EmptyString
  | String c s' =>
      match skip with
      | S k => reemail_sub k s'
      | O =>
          match reemail_match s with
          | Some n => reemail_sub (Nat.pred n) s'
          | None => String c (reemail_sub 0 s')
          end
      end
  end.

Definition set_maint (m : string) (e : Excuse) : Excuse :=
  with_maint (Some (reemail_sub 0 m)) e.

Definition set_section (s : string) (e : Excuse) : Excuse :=
  with_section (Some s) e.

Definition add_dependency (deptype : DependencyType) (name arch : string)
    (e : Excuse) : Excuse :=
  let deps :=
    if dict_mem name (all_deps e) then all_deps e
    else dict_set name [] (all_deps e) in
  let kinds := default [] (dict_get name deps) in
  let kinds :=
    if dict_mem deptype kinds then kinds else dict_set deptype [] kinds in
  let archs := default [] (dict_get deptype kinds) in
  with_all_deps (dict_set name (dict_set deptype (append archs arch) kinds) deps) e.

Definition get_deps (e : Excuse) : gset string :=
  list_to_set
    (dict_keys (filter (fun kv => dict_mem DEPENDS (snd kv) = true) (all_deps e))).

Definition add_sane_dep (name : string) (e : Excuse) : Excuse :=
  if list_mem name (sane_deps e) then e
  else with_sane_deps (append (sane_deps e) name) e.

Definition add_break_dep (name arch : string) (e : Excuse) : Excuse :=
  if list_mem (name, arch) (break_deps e) then e
  else with_break_deps (append (break_deps e) (name, arch)) e.

Definition add_unsatisfiable_on_arch (arch : string) (e : Excuse) : Excuse :=
  if list_mem arch (unsatisfiable_on_archs e) then e
  else with_unsatisfiable_on_archs (append (unsatisfiable_on_archs e) arch) e.

(** [defaultdict(set)]: reading a missing key yields the empty set. *)
Definition defaultdict_add (k x : string) (d : list (string * gset string))
    : list (string * gset string) :=
  dict_set k (default ∅ (dict_get k d) ∪ {[ x ]}) d.

Definition add_unsatisfiable_dep (signature arch : string) (e : Excuse)
    : Excuse :=
  with_unsat_deps (defaultdict_add arch signature (unsat_deps e)) e.

Definition invalidate_dependency (name : string) (e : Excuse) : Excuse :=
  with_all_invalid_deps (all_invalid_deps e ∪ {[ name ]}) e.

(** [setdaysold] stores its two arguments as they are given; an argument
    is a number or [None]. *)
Definition setdaysold (daysold mindays : option Z) (e : Excuse) : Excuse :=
  with_daysold_and_mindays daysold mindays e.

(** [force] returns its boolean together with the updated record. *)
Definition force (e : Excuse) : bool * Excuse :=
  let e := with_forced true e in
  if is_rejected (_policy_verdict e)
  then (true, with_policy_verdict PASS_HINTED e)
  else (false, e).

Definition addhtml (note : string) (e : Excuse) : Excuse :=
  with_htmlline (append (htmlline e) note) e.

Definition missing_build_on_arch (arch : string) (e : Excuse) : Excuse :=
  with_missing_builds (missing_builds e ∪ {[ arch ]}) e.

Definition missing_build_on_ood_arch (arch : string) (e : Excuse) : Excuse :=
  with_missing_builds (missing_builds e ∪ {[ arch ]}) e.

Definition add_old_binary (binary from_source_version : string) (e : Excuse)
    : Excuse :=
  with_old_binaries
    (defaultdict_add from_source_version binary (old_binaries e)) e.

Definition add_hint (hint : Hint) (e : Excuse) : Excuse :=
  with_hints (append (hints e) hint) e.

Definition setbugs (oldbugs' newbugs' : gset string) (e : Excuse) : Excuse :=
  with_oldbugs (oldbugs e ∪ oldbugs') (with_newbugs (newbugs e ∪ newbugs') e).

Definition addreason (r : string) (e : Excuse) : Excuse :=
  with_reason (dict_set r 1 (reason e)) e.

Definition add_bounty (policy : string) (b : Z) (e : Excuse) : Excuse :=
  with_bounty (dict_set policy b (bounty e)) e.

Definition add_penalty (policy : string) (p : Z) (e : Excuse) : Excuse :=
  with_penalty (dict_set policy p (penalty e)) e.

(** ** The HTML rendering *)

Definition _format_verdict_summary (e : Excuse) : string :=
  let verdict := _policy_verdict e in
  match dict_get verdict VERDICT2DESC with
  | Some desc => desc
  | None =>
      "UNKNOWN: Missing description for " ++ verdict_name verdict
        ++ " - Please file a bug against Britney"
  end.

(** [x.split('/')[0]]; [split] never returns the empty list. *)
Definition split0 (c : ascii) (x : string) : string :=
  hd EmptyString (split c x).

(** The list item [_render_dep_issues] emits for one dependency kind. *)
Definition dep_issue_line (field : DependencyType) (name dep : string)
    (not_considered : bool) : string :=
  "<li>" ++ deptype_str field ++ ": " ++ name ++ " <a href=" ++ dq ++ "#"
    ++ dep ++ dq ++ ">" ++ dep ++ "</a>"
    ++ (if not_considered then " (not considered)" else EmptyString) ++ nl.

(** The inner loop of [_render_dep_issues].  [seen] is [None] while the
    local variable is still unbound. *)
Fixpoint render_deptypes (name dep : string) (not_considered : bool)
    (deptypes : list DependencyType)
    (seen : option (list DependencyType)) (res : list string)
    : result (option (list DependencyType) * list string) :=
  match deptypes with
  | [] => Ok (seen, res)
  | deptype :: rest =>
      match seen with
      | None => Raise UnboundLocalError
      | Some sn =>
          if list_mem deptype sn
          then render_deptypes name dep not_considered rest seen res
          else render_deptypes name dep not_considered rest
                 (Some (append sn deptype))
                 (append res (dep_issue_line deptype name dep not_considered))
      end
  end.

(** The outer loop, over the already sorted keys. *)
Fixpoint render_dep_loop (name : string)
    (dep_issues : list (string * list (DependencyType * list string)))
    (invalid_deps : gset string) (xs : list string)
    (lastdep : string) (seen : option (list DependencyType))
    (res : list string) : result (list string) :=
  match xs with
  | [] => Ok res
  | x :: xs' =>
      let dep := split0 "/" x in
      let seen := if bool_decide (dep ≠ lastdep) then Some [] else seen in
      let deptypes :=
        sorted_by String.leb deptype_str
          (dict_keys (default [] (dict_get x dep_issues))) in
      let* st := render_deptypes name dep (bool_decide (x ∈ invalid_deps))
                   deptypes seen res in
      render_dep_loop name dep_issues invalid_deps xs' dep (fst st) (snd st)
  end.

Definition _render_dep_issues (e : Excuse)
    (dep_issues : list (string * list (DependencyType * list string)))
    (invalid_deps : gset string) : result string :=
  let* res := render_dep_loop (name e) dep_issues invalid_deps
                (sorted_by String.leb (split0 "/") (dict_keys dep_issues))
                EmptyString None [] in
  Ok (String.concat EmptyString res).

(** The three parts every rendering has. *)
Definition html_header (e : Excuse) : string :=
  "<a id=" ++ dq ++ name e ++ dq ++ " name=" ++ dq ++ name e ++ dq ++ ">"
    ++ name e ++ "</a> (" ++ fst (ver e) ++ " to " ++ snd (ver e) ++ ")" ++ nl
    ++ "<ul>" ++ nl.

Definition html_verdict_line (e : Excuse) : string :=
  "<li>Migration status: " ++ _format_verdict_summary e ++ nl.

Definition html_closing : string := "</ul>" ++ nl.

(** The age line; comparing an age with an unset minimum raises. *)
Definition html_age (e : Excuse) : result string :=
  match daysold e with
  | None => Ok EmptyString
  | Some d =>
      match mindays e with
      | None => Raise TypeError
      | Some m =>
          if m =? 0 then Ok ("<li>" ++ fmt_d d ++ " days old" ++ nl)
          else if d <? m then
            Ok ("<li>Too young, only " ++ fmt_d d ++ " of " ++ fmt_d m
                  ++ " days old" ++ nl)
          else
            Ok ("<li>" ++ fmt_d d ++ " days old (needed " ++ fmt_d m
                  ++ " days)" ++ nl)
      end
  end.

Definition html_break_dep (e : Excuse) (na : string * string) : string :=
  let (n, a) := na in
  if dict_mem n (all_deps e) then EmptyString
  else "<li>Ignoring " ++ a ++ " depends: <a href=" ++ dq ++ "#" ++ n ++ dq
         ++ ">" ++ n ++ "</a>" ++ nl.

Definition html (e : Excuse) : result string :=
  let res := html_header e in
  let res := res ++ html_verdict_line e in
  let res :=
    if truthy_opt (maint e)
    then res ++ "<li>Maintainer: " ++ default EmptyString (maint e) ++ nl
    else res in
  let res :=
    if truthy_opt (section e) && (-1 <? find "/" (default EmptyString (section e)))
    then res ++ "<li>Section: " ++ default EmptyString (section e) ++ nl
    else res in
  let* age := html_age e in
  let res := res ++ age in
  let res := fold_left (fun r x => r ++ "<li>" ++ x ++ nl) (htmlline e) res in
  let* deps := _render_dep_issues e (all_deps e) (all_invalid_deps e) in
  let res := res ++ deps in
  let res := fold_left (fun r na => r ++ html_break_dep e na) (break_deps e) res in
  Ok (res ++ html_closing).

(** ** The structured rendering *)

Definition _text (e : Excuse) : list string :=
  fold_left (fun res x => append res (EmptyString ++ x ++ EmptyString))
    (htmlline e) [].

(** The [source] local of [excusedata]. *)
Definition derive_source (name : string) : result string :=
  let source := name in
  let source := if contains "_" source then split0 "_" source else source in
  let source := if contains "/" source then split0 "/" source else source in
  let* c := char0 source in
  Ok (if Ascii.eqb c "-" then slice1 source else source).

Definition VStrs (l : list string) : value := VList (map VStr l).

Definition sorted_sets (d : list (string * gset string)) : value :=
  VDict (map (fun kv => (fst kv, VStrs (sorted_set (snd kv)))) d).

(** Truth value of a set: non-empty. *)
Definition set_truthy (s : gset string) : bool := negb (bool_decide (s = ∅)).

(** Truth value of a list or dict: non-empty. *)
Definition list_truthy {A} (l : list A) : bool :=
  match l with [] => false | _ :: _ => true end.

(** The [dependencies] sub-document. *)
Definition dependencies_data (e : Excuse) : list (string * value) :=
  let dep_data := [] in
  let migrate_after :=
    sorted_set (list_to_set (dict_keys (all_deps e)) ∖ all_invalid_deps e) in
  let break_deps :=
    map fst (filter (fun xa => dict_mem (fst xa) (all_deps e) = false)
               (break_deps e)) in
  let dep_data :=
    if set_truthy (all_invalid_deps e)
    then dict_set "blocked-by" (VStrs (sorted_set (all_invalid_deps e))) dep_data
    else dep_data in
  let dep_data :=
    if list_truthy migrate_after
    then dict_set "migrate-after" (VStrs migrate_after) dep_data
    else dep_data in
  let dep_data :=
    if list_truthy break_deps
    then dict_set "unimportant-dependencies" (VStrs (sorted break_deps)) dep_data
    else dep_data in
  if list_truthy (unsat_deps e)
  then dict_set "unsatisfiable-dependencies" (sorted_sets (unsat_deps e)) dep_data
  else dep_data.

Definition hint_info (h : Hint) : value :=
  VDict [("hint-type", VStr (hint_type h)); ("hint-from", VStr (hint_user h))].

(** The document for an already derived [source]. *)
Definition excusedata_of (e : Excuse) (source : string)
    : list (string * value) :=
  let excusedata := [] in
  let excusedata := dict_set "excuses" (VStrs (_text e)) excusedata in
  let excusedata := dict_set "item-name" (VStr (name e)) excusedata in
  let excusedata := dict_set "source" (VStr source) excusedata in
  let excusedata :=
    dict_set "migration-policy-verdict"
      (VStr (verdict_name (_policy_verdict e))) excusedata in
  let excusedata := dict_set "old-version" (VStr (fst (ver e))) excusedata in
  let excusedata := dict_set "new-version" (VStr (snd (ver e))) excusedata in
  let excusedata :=
    if truthy_opt (maint e)
    then dict_set "maintainer" (VStr (default EmptyString (maint e))) excusedata
    else excusedata in
  let excusedata :=
    if truthy_opt (section e) && (-1 <? find "/" (default EmptyString (section e)))
    then dict_set "component"
           (VStr (split0 "/" (default EmptyString (section e)))) excusedata
    else excusedata in
  let excusedata :=
    if list_truthy (policy_info e)
    then dict_set "policy_info" (VDict (policy_info e)) excusedata
    else excusedata in
  let excusedata :=
    if set_truthy (missing_builds e) || set_truthy (missing_builds_ood_arch e)
    then dict_set "missing-builds"
           (VDict
              [("on-architectures", VStrs (sorted_set (missing_builds e)));
               ("on-unimportant-architectures",
                VStrs (sorted_set (missing_builds_ood_arch e)))])
           excusedata
    else excusedata in
  let excusedata :=
    if set_truthy (all_invalid_deps e)
    then dict_set "invalidated-by-other-package" (VBool true) excusedata
    else excusedata in
  let excusedata :=
    if list_truthy (all_deps e) || set_truthy (all_invalid_deps e)
       || list_truthy (break_deps e) || list_truthy (unsat_deps e)
    then dict_set "dependencies" (VDict (dependencies_data e)) excusedata
    else excusedata in
  let excusedata :=
    if needs_approval e
    then
      let status :=
        if existsb (fun h => bool_decide (hint_type h = "unblock")) (hints e)
        then "approved" else "not-approved" in
      dict_set "manual-approval-status" (VStr status) excusedata
    else excusedata in
  let excusedata :=
    if list_truthy (hints e)
    then dict_set "hints" (VList (map hint_info (hints e))) excusedata
    else excusedata in
  let excusedata :=
    if list_truthy (old_binaries e)
    then dict_set "old-binaries" (sorted_sets (old_binaries e)) excusedata
    else excusedata in
  let excusedata :=
    if forced e
    then dict_set "reason" (VList [])
           (dict_set "forced-reason" (VStrs (sorted (dict_keys (reason e))))
              excusedata)
    else dict_set "reason" (VStrs (sorted (dict_keys (reason e)))) excusedata in
  dict_set "is-candidate" (VBool (is_valid e)) excusedata.

Definition excusedata (e : Excuse) : result (list (string * value)) :=
  let* source := derive_source (name e) in
  Ok (excusedata_of e source).

(** ** Call sequences

    A record is created by [__init__] and then changed only through the
    methods of the class; [needs_approval] and [policy_info] have no method
    and are assigned by the callers directly. *)

Inductive call :=
| Assign_policy_verdict (value : PolicyVerdict)
| Assign_needs_approval (b : bool)
| Assign_policy_info (policy : string) (info : value)
| Call_set_vers (tver uver : option string)
| Call_set_maint (maint : string)
| Call_set_section (section : string)
| Call_add_dependency (deptype : DependencyType) (name arch : string)
| Call_add_sane_dep (name : string)
| Call_add_break_dep (name arch : string)
| Call_add_unsatisfiable_on_arch (arch : string)
| Call_add_unsatisfiable_dep (signature arch : string)
| Call_invalidate_dependency (name : string)
| Call_setdaysold (daysold mindays : option Z)
| Call_force
| Call_addhtml (note : string)
| Call_missing_build_on_arch (arch : string)
| Call_missing_build_on_ood_arch (arch : string)
| Call_add_old_binary (binary from_source_version : string)
| Call_add_hint (hint : Hint)
| Call_setbugs (oldbugs newbugs : gset string)
| Call_addreason (reason : string)
| Call_add_bounty (policy : string) (bounty : Z)
| Call_add_penalty (policy : string) (penalty : Z).

Definition run_call (c : call) (e : Excuse) : Excuse :=
  match c with
  | Assign_policy_verdict value => set_policy_verdict value e
  | Assign_needs_approval b => with_needs_approval b e
  | Assign_policy_info policy info =>
      with_policy_info (dict_set policy info (policy_info e)) e
  | Call_set_vers tver uver => set_vers tver uver e
  | Call_set_maint m => set_maint m e
  | Call_set_section s => set_section s e
  | Call_add_dependency deptype name arch => add_dependency deptype name arch e
  | Call_add_sane_dep name => add_sane_dep name e
  | Call_add_break_dep name arch => add_break_dep name arch e
  | Call_add_unsatisfiable_on_arch arch => add_unsatisfiable_on_arch arch e
  | Call_add_unsatisfiable_dep signature arch =>
      add_unsatisfiable_dep signature arch e
  | Call_invalidate_dependency name => invalidate_dependency name e
  | Call_setdaysold d m => setdaysold d m e
  | Call_force => snd (force e)
  | Call_addhtml note => addhtml note e
  | Call_missing_build_on_arch arch => missing_build_on_arch arch e
  | Call_missing_build_on_ood_arch arch => missing_build_on_ood_arch arch e
  | Call_add_old_binary binary v => add_old_binary binary v e
  | Call_add_hint hint => add_hint hint e
  | Call_setbugs o n => setbugs o n e
  | Call_addreason r => addreason r e
  | Call_add_bounty policy b => add_bounty policy b e
  | Call_add_penalty policy p => add_penalty policy p e
  end.

Definition run_calls (cs : list call) (e : Excuse) : Excuse :=
  fold_left (fun e c => run_call c e) cs e.

(** The calls that can change the stored verdict. *)
Definition writes_verdict (c : call) : bool :=
  match c with
  | Assign_policy_verdict _ | Call_force => true
  | _ => false
  end.

(** ** The spec's reading of the source derivation

    "Stripping a trailing [_suffix] segment, then a trailing [/suffix]
    segment, then a single leading [-] character": [before c s] is [s] up
    to its first [c]. *)

Fixpoint before (c : ascii) (s : string) : string :=
  match s with
  | EmptyString => EmptyString
  | String x s' => if Ascii.eqb x c then EmptyString else String x (before c s')
  end.

Definition strip_leading_dash (s : string) : string :=
  match s with
  | String x s' => if Ascii.eqb x "-" then s' else s
  | EmptyString => EmptyString
  end.

Definition source_by_spec (name : string) : string :=
  strip_leading_dash (before "/" (before "_" name)).

(** ** The order in which the spec says sorted excuses are presented:
    unknown age first, then ascending age, ties broken by name. *)

Definition presented_before (a b : Excuse) : Prop :=
  match daysold a, daysold b with
  | None, None => String.leb (name a) (name b) = true
  | None, Some _ => True
  | Some _, None => False
  | Some x, Some y => x < y \/ (x = y /\ String.leb (name a) (name b) = true)
  end.

Definition age_not_negative (e : Excuse) : Prop :=
  match daysold e with
  | None => True
  | Some d => 0 <= d
  end.

(** [sorted(excuses, key=lambda x: x.sortkey())] *)
Definition sort_excuses (l : list Excuse) : list Excuse :=
  sorted_by tuple_leb sortkey l.

(** ** The scenarios of the spec *)

Definition scenario_A : Excuse :=
  set_policy_verdict PASS
    (set_vers (Some "1.0") (Some "1.1") (__init__ "libfoo")).

Definition scenario_B : Excuse :=
  invalidate_dependency "libbar"
    (add_dependency DEPENDS "libbar" "amd64" scenario_A).

Definition negative_age : Excuse :=
  setdaysold (Some (-1)) (Some 0) (__init__ "foo").

Definition unknown_age : Excuse := __init__ "bar".

Definition early_age : Excuse :=
  setdaysold (Some (-5)) (Some 0) (__init__ "baz").

(** ** Readers used to state what the records and documents hold *)

(** [all_deps[name][deptype]], when both keys are there. *)
Definition dep_archs (name : string) (deptype : DependencyType)
    (d : list (string * list (DependencyType * list string)))
    : option (list string) :=
  match dict_get name d with
  | Some kinds => dict_get deptype kinds
  | None => None
  end.

(** What [add_dependency] keeps of [all_deps]: no name and no kind is
    entered twice, every name has a kind and every kind an architecture. *)
Definition kinds_ok (kinds : list (DependencyType * list string)) : Prop :=
  kinds <> [] /\ NoDup (dict_keys kinds)
  /\ Forall (fun ka => snd ka <> []) kinds.

Definition all_deps_ok
    (d : list (string * list (DependencyType * list string))) : Prop :=
  NoDup (dict_keys d) /\ Forall (fun kv => kinds_ok (snd kv)) d.

(** The strings of a list value, and of the list stored under a key (no
    strings when the key is missing). *)
Definition value_strs (v : value) : list string :=
  match v with
  | VList l =>
      omap (fun x => match x with VStr s => Some s | _ => None end) l
  | _ => []
  end.

Definition doc_strs (k : string) (doc : list (string * value)) : list string :=
  match dict_get k doc with
  | Some v => value_strs v
  | None => []
  end.

(** [n] spaces, and whether a string ends with a space. *)
Fixpoint spaces (n : nat) : string :=
  match n with
  | O => EmptyString
  | S n' => String " " (spaces n')
  end.

Fixpoint ends_with_space (s : string) : bool :=
  match s with
  | EmptyString => false
  | String c EmptyString => Ascii.eqb c " "
  | String _ s' => ends_with_space s'
  end.

(** The names of [d] that come with a [DEPENDS] kind: what [get_deps]
    collects from [all_deps]. *)
Definition depends_names
    (d : list (string * list (DependencyType * list string))) : gset string :=
  list_to_set
    (dict_keys (filter (fun kv => dict_mem DEPENDS (snd kv) = true) d)).

(** The calls after which the age has its minimum: every call except a
    [setdaysold] that gives an age and [None] for the minimum. *)
Definition gives_minimum_with_age (c : call) : bool :=
  match c with
  | Call_setdaysold (Some _) None => false
  | _ => true
  end.

(** The calls that enter a dependency name into [all_deps]. *)
Definition dependency_name_of (c : call) : option string :=
  match c with
  | Call_add_dependency _ name _ => Some name
  | _ => None
  end.

(** * Properties *)

(** ** Dictionaries *)

Section DictFacts.
Context {K V : Type} `{EqDecision K}.
Implicit Types (k : K) (v : V) (d : list (K * V)).

Lemma dict_get_set_eq k v d : dict_get k (dict_set k v d) = Some v.
Proof.
  induction d as [|[k' v'] d IH]; simpl.
  - by rewrite decide_True.
  - destruct (decide (k' = k)) as [->|Hne]; simpl.
    + by rewrite decide_True.
    + by rewrite decide_False.
Qed.

Lemma dict_get_set_ne k k' v d :
  k <> k' -> dict_get k (dict_set k' v d) = dict_get k d.
Proof.
  intros Hne. induction d as [|[k0 v0] d IH]; simpl.
  - rewrite decide_False; [done | congruence].
  - destruct (decide (k0 = k')) as [->|Hne']; simpl.
    + rewrite !decide_False; [done | congruence | congruence].
    + by rewrite IH.
Qed.

Lemma dict_get_set_if k k' v d (b : bool) :
  k <> k' -> dict_get k (if b then dict_set k' v d else d) = dict_get k d.
Proof. intros Hne. destruct b; [by apply dict_get_set_ne | done]. Qed.
End DictFacts.

(** ** Strings *)

Lemma split_not_nil c s : split c s <> [].
Proof.
  destruct s as [|x s]; simpl; [done|].
  destruct (Ascii.eqb x c); [done|]. by destruct (split c s).
Qed.

Lemma split0_before c s : split0 c s = before c s.
Proof.
  unfold split0. induction s as [|x s IH]; simpl; [done|].
  destruct (Ascii.eqb x c); [done|].
  pose proof (split_not_nil c s) as Hnil.
  destruct (split c s) as [|w ws]; [done|]. simpl in *. by rewrite IH.
Qed.

Lemma before_no_sep c s : contains c s = false -> before c s = s.
Proof.
  induction s as [|x s IH]; simpl; [done|].
  destruct (Ascii.eqb x c); [done|]. intros Hs. by rewrite IH.
Qed.

Lemma ascii_compare_refl x : Ascii.compare x x = Eq.
Proof. unfold Ascii.compare. apply N.compare_refl. Qed.

Lemma ascii_compare_lt_trans x y z :
  Ascii.compare x y = Lt -> Ascii.compare y z = Lt -> Ascii.compare x z = Lt.
Proof. unfold Ascii.compare. rewrite !N.compare_lt_iff. lia. Qed.

Lemma string_compare_refl s : String.compare s s = Eq.
Proof.
  induction s as [|x s IH]; simpl; [done|]. by rewrite ascii_compare_refl.
Qed.

Lemma string_compare_lt_trans a b c :
  String.compare a b = Lt -> String.compare b c = Lt -> String.compare a c = Lt.
Proof.
  revert b c. induction a as [|x a IH]; intros [|y b] [|z c]; simpl; try done.
  destruct (Ascii.compare x y) eqn:Hxy; try done;
    destruct (Ascii.compare y z) eqn:Hyz; try done.
  - apply Ascii.compare_eq_iff in Hxy, Hyz. subst.
    rewrite ascii_compare_refl. apply IH.
  - apply Ascii.compare_eq_iff in Hxy. subst. by rewrite Hyz.
  - apply Ascii.compare_eq_iff in Hyz. subst. by rewrite Hxy.
  - by rewrite (ascii_compare_lt_trans x y z).
Qed.

Lemma string_leb_cases a b :
  String.leb a b = true <-> String.compare a b = Lt \/ a = b.
Proof.
  unfold String.leb. split.
  - destruct (String.compare a b) eqn:Hab; try done.
    + apply String.compare_eq_iff in Hab. auto.
    + auto.
  - intros [-> | ->]; [done|]. by rewrite string_compare_refl.
Qed.

Lemma string_leb_refl a : String.leb a a = true.
Proof. apply string_leb_cases. auto. Qed.

Lemma string_leb_trans a b c :
  String.leb a b = true -> String.leb b c = true -> String.leb a c = true.
Proof.
  rewrite !string_leb_cases. intros [Hab | ->] [Hbc | ->]; auto.
  left. by apply (string_compare_lt_trans a b c).
Qed.

(** ** Tuple keys *)

Lemma tuple_leb_total a b : tuple_leb a b = true \/ tuple_leb b a = true.
Proof.
  unfold tuple_leb. destruct a as [x s], b as [y t]; simpl.
  destruct (Z.lt_trichotomy x y) as [Hlt | [-> | Hgt]].
  - left. apply orb_true_iff. left. by apply Z.ltb_lt.
  - rewrite Z.eqb_refl, Z.ltb_irrefl. simpl. apply String.leb_total.
  - right. apply orb_true_iff. left. by apply Z.ltb_lt.
Qed.

Lemma tuple_leb_spec a b :
  tuple_leb a b = true <->
  fst a < fst b \/ (fst a = fst b /\ String.leb (snd a) (snd b) = true).
Proof.
  unfold tuple_leb.
  rewrite orb_true_iff, andb_true_iff, Z.ltb_lt, Z.eqb_eq. done.
Qed.

Lemma tuple_leb_trans a b c :
  tuple_leb a b = true -> tuple_leb b c = true -> tuple_leb a c = true.
Proof.
  rewrite !tuple_leb_spec.
  intros [Hab | [Hab Hs]] [Hbc | [Hbc Ht]]; try (left; lia).
  right. split; [lia|]. by apply (string_leb_trans _ (snd b)).
Qed.

(** ** [sorted] *)

Section SortFacts.
Context {A K : Type} (leb : K -> K -> bool) (key : A -> K).
Hypothesis leb_total : forall a b, leb a b = true \/ leb b a = true.
Hypothesis leb_trans :
  forall a b c, leb a b = true -> leb b c = true -> leb a c = true.

Let le (x y : A) : Prop := leb (key x) (key y) = true.

Lemma insert_by_perm x l : Permutation (x :: l) (insert_by leb key x l).
Proof.
  induction l as [|y l IH]; simpl; [done|].
  destruct (leb (key x) (key y)); [done|].
  rewrite perm_swap. by constructor.
Qed.

Lemma sorted_by_perm l : Permutation l (sorted_by leb key l).
Proof.
  induction l as [|x l IH]; simpl; [done|].
  rewrite <- insert_by_perm. by constructor.
Qed.

Lemma insert_by_sorted x l :
  StronglySorted le l -> StronglySorted le (insert_by leb key x l).
Proof.
  induction 1 as [|y l Hl IH Hy]; simpl.
  - repeat constructor.
  - destruct (leb (key x) (key y)) eqn:Hxy.
    + constructor; [by constructor|].
      constructor; [done|].
      eapply Forall_impl; [exact Hy|]. intros z Hz. by eapply leb_trans.
    + constructor; [done|].
      rewrite <- insert_by_perm. constructor; [|done].
      destruct (leb_total (key x) (key y)) as [H|H]; [congruence | done].
Qed.

Lemma sorted_by_sorted l : StronglySorted le (sorted_by leb key l).
Proof.
  induction l as [|x l IH]; simpl; [constructor|]. by apply insert_by_sorted.
Qed.
End SortFacts.

Lemma StronglySorted_impl_Forall {A} (P : A -> Prop) (R S : A -> A -> Prop) l :
  (forall a b, P a -> P b -> R a b -> S a b) ->
  Forall P l -> StronglySorted R l -> StronglySorted S l.
Proof.
  intros HRS HP Hl. induction Hl as [|x l Hl IH Hx]; [constructor|].
  inversion HP as [|? ? Px Pl]; subst.
  constructor; [by apply IH|].
  rewrite Forall_forall in *. intros y Hy. apply HRS; auto.
Qed.

Lemma sorted_elem_of x l : x ∈ sorted l <-> x ∈ l.
Proof. unfold sorted. by rewrite <- sorted_by_perm. Qed.

Lemma sorted_set_elem_of x (s : gset string) : x ∈ sorted_set s <-> x ∈ s.
Proof. unfold sorted_set. by rewrite sorted_elem_of, elem_of_elements. Qed.

Lemma sorted_is_sorted l :
  StronglySorted (fun a b => String.leb a b = true) (sorted l).
Proof.
  apply (sorted_by_sorted String.leb (fun s => s)).
  - apply String.leb_total.
  - apply string_leb_trans.
Qed.

Lemma sorted_nil_iff l : sorted l = [] <-> l = [].
Proof.
  split; [|by intros ->].
  intros Hs. apply Permutation_nil. rewrite <- Hs. symmetry.
  apply (sorted_by_perm String.leb (fun s => s)).
Qed.

(** ** The verdict and the force hint *)

Lemma run_calls_snoc cs c e :
  run_calls (cs ++ [c])%list e = run_call c (run_calls cs e).
Proof. unfold run_calls. by rewrite fold_left_app. Qed.

Lemma other_calls_keep_verdict c e :
  writes_verdict c = false ->
  _policy_verdict (run_call c e) = _policy_verdict e
  /\ forced (run_call c e) = forced e.
Proof.
  destruct c; simpl; try done; intros _;
    unfold set_vers, add_sane_dep, add_break_dep, add_unsatisfiable_on_arch;
    repeat case_match; done.
Qed.

Lemma set_policy_verdict_forced_valid value e :
  forced e = true -> is_valid (set_policy_verdict value e) = true.
Proof.
  intros Hf. unfold is_valid, set_policy_verdict. simpl. rewrite Hf.
  by destruct value.
Qed.

Lemma force_valid e : is_valid (snd (force e)) = true.
Proof.
  unfold force, is_valid. simpl.
  destruct (is_rejected (_policy_verdict e)) eqn:Hr; simpl; [done|].
  by rewrite Hr.
Qed.

Lemma forced_valid_step c e :
  (forced e = true -> is_valid e = true) ->
  forced (run_call c e) = true -> is_valid (run_call c e) = true.
Proof.
  intros Hinv. destruct (writes_verdict c) eqn:Hw.
  - destruct c; try done; simpl.
    + intros Hf. apply set_policy_verdict_forced_valid. exact Hf.
    + intros _. apply force_valid.
  - destruct (other_calls_keep_verdict c e Hw) as [Hv Hf].
    unfold is_valid in *. rewrite Hv, Hf. exact Hinv.
Qed.

Lemma forced_valid_reachable cs name :
  forced (run_calls cs (__init__ name)) = true ->
  is_valid (run_calls cs (__init__ name)) = true.
Proof.
  induction cs as [|c cs IH] using rev_ind; [done|].
  rewrite run_calls_snoc. by apply forced_valid_step.
Qed.

(** C1: on a record with [forced = true], assigning a rejected verdict
    through the [policy_verdict] setter stores [PASS_HINTED], and whatever
    is assigned the record is valid afterwards; on a record with
    [forced = false] the assigned verdict is stored unchanged.  Hence no
    record built from [__init__] by the calls of the class is forced and
    not valid. *)
Theorem policy_verdict_setter_forced (e : Excuse) (value : PolicyVerdict) :
  (forced e = true -> is_rejected value = true ->
   policy_verdict (set_policy_verdict value e) = PASS_HINTED)
  /\ (forced e = true -> is_valid (set_policy_verdict value e) = true)
  /\ (forced e = false -> policy_verdict (set_policy_verdict value e) = value)
  /\ (forall cs, forced (run_calls cs e) = true ->
        (forced e = true -> is_valid e = true) ->
        is_valid (run_calls cs e) = true)
  /\ (forall cs name, forced (run_calls cs (__init__ name)) = true ->
        is_valid (run_calls cs (__init__ name)) = true).
Proof.
  repeat split.
  - intros Hf Hr. unfold policy_verdict, set_policy_verdict. simpl.
    by rewrite Hf, Hr.
  - apply set_policy_verdict_forced_valid.
  - intros Hf. unfold policy_verdict, set_policy_verdict. simpl.
    by rewrite Hf, andb_false_r.
  - intros cs. induction cs as [|c cs IH] using rev_ind; [auto|].
    rewrite run_calls_snoc. intros Hf Hinv.
    apply forced_valid_step; [|done]. intros Hf'. by apply IH.
  - apply forced_valid_reachable.
Qed.

Lemma policy_verdict_setter_forced_witness :
  policy_verdict
    (set_policy_verdict REJECTED_NEEDS_APPROVAL (snd (force (__init__ "foo"))))
  = PASS_HINTED
  /\ policy_verdict (set_policy_verdict REJECTED_NEEDS_APPROVAL (__init__ "foo"))
     = REJECTED_NEEDS_APPROVAL.
Proof.
  split.
  - apply (proj1 (policy_verdict_setter_forced
                    (snd (force (__init__ "foo"))) REJECTED_NEEDS_APPROVAL));
      reflexivity.
  - apply (proj1 (proj2 (proj2 (policy_verdict_setter_forced
                    (__init__ "foo") REJECTED_NEEDS_APPROVAL))));
      reflexivity.
Defined.

(** C4: [force] sets [forced]; it returns [True] exactly when the verdict
    at the time of the call is rejected, in which case the stored verdict
    becomes [PASS_HINTED]; otherwise the verdict is left as it was.
    Nothing else changes. *)
Theorem force_sets_forced_and_reports (e : Excuse) :
  forced (snd (force e)) = true
  /\ fst (force e) = is_rejected (_policy_verdict e)
  /\ _policy_verdict (snd (force e))
     = (if is_rejected (_policy_verdict e) then PASS_HINTED
        else _policy_verdict e)
  /\ snd (force e)
     = with_policy_verdict (_policy_verdict (snd (force e)))
         (with_forced true e).
Proof.
  unfold force. simpl.
  destruct (is_rejected (_policy_verdict e)) eqn:Hr; simpl; repeat split.
Qed.

(** C7: [add_sane_dep] and [add_unsatisfiable_on_arch] are idempotent: a
    second call with the same argument returns the record of the first
    call, so the sequence and its length are the same; the sequence before
    the call is always a prefix of the sequence after it, and the argument
    is in it. *)
Theorem add_sane_dep_unsatisfiable_idempotent (e : Excuse) (x : string) :
  add_sane_dep x (add_sane_dep x e) = add_sane_dep x e
  /\ add_unsatisfiable_on_arch x (add_unsatisfiable_on_arch x e)
     = add_unsatisfiable_on_arch x e
  /\ length (sane_deps (add_sane_dep x (add_sane_dep x e)))
     = length (sane_deps (add_sane_dep x e))
  /\ length (unsatisfiable_on_archs
               (add_unsatisfiable_on_arch x (add_unsatisfiable_on_arch x e)))
     = length (unsatisfiable_on_archs (add_unsatisfiable_on_arch x e))
  /\ sane_deps e `prefix_of` sane_deps (add_sane_dep x e)
  /\ unsatisfiable_on_archs e
       `prefix_of` unsatisfiable_on_archs (add_unsatisfiable_on_arch x e)
  /\ x ∈ sane_deps (add_sane_dep x e)
  /\ x ∈ unsatisfiable_on_archs (add_unsatisfiable_on_arch x e)
  /\ sane_deps (add_sane_dep x e)
     = (if bool_decide (x ∈ sane_deps e) then sane_deps e
        else (sane_deps e ++ [x])%list)
  /\ unsatisfiable_on_archs (add_unsatisfiable_on_arch x e)
     = (if bool_decide (x ∈ unsatisfiable_on_archs e)
        then unsatisfiable_on_archs e
        else (unsatisfiable_on_archs e ++ [x])%list).
Proof.
  assert (Hs : add_sane_dep x (add_sane_dep x e) = add_sane_dep x e).
  { unfold add_sane_dep at 1. unfold list_mem.
    rewrite bool_decide_eq_true_2; [done|].
    unfold add_sane_dep, list_mem. case_bool_decide; simpl; [done|].
    unfold append. set_solver. }
  assert (Hu : add_unsatisfiable_on_arch x (add_unsatisfiable_on_arch x e)
               = add_unsatisfiable_on_arch x e).
  { unfold add_unsatisfiable_on_arch at 1. unfold list_mem.
    rewrite bool_decide_eq_true_2; [done|].
    unfold add_unsatisfiable_on_arch, list_mem. case_bool_decide; simpl; [done|].
    unfold append. set_solver. }
  rewrite Hs, Hu.
  unfold add_sane_dep, add_unsatisfiable_on_arch, list_mem, append.
  repeat split; repeat case_bool_decide; simpl; try done;
    try (by apply prefix_app_r); set_solver.
Qed.

(** ** Looking keys up in the structured document *)

Ltac dict_skip :=
  repeat first
    [ rewrite dict_get_set_ne by (intros ?; discriminate)
    | rewrite dict_get_set_if by (intros ?; discriminate) ].

Lemma excusedata_of_is_candidate e source :
  dict_get "is-candidate" (excusedata_of e source) = Some (VBool (is_valid e)).
Proof. unfold excusedata_of. apply dict_get_set_eq. Qed.

Lemma excusedata_of_reason_layer {V} k (v1 v2 v3 : V) (b : bool) d :
  k <> "reason" -> k <> "forced-reason" ->
  dict_get k
    (if b then dict_set "reason" v1 (dict_set "forced-reason" v2 d)
     else dict_set "reason" v3 d) = dict_get k d.
Proof.
  intros H1 H2. destruct b; rewrite ?dict_get_set_ne by done; done.
Qed.

Ltac dict_enter :=
  unfold excusedata_of;
  rewrite dict_get_set_ne by (intros ?; discriminate);
  rewrite excusedata_of_reason_layer by (intros ?; discriminate);
  dict_skip.

Lemma excusedata_of_excuses e source :
  dict_get "excuses" (excusedata_of e source) = Some (VStrs (_text e)).
Proof. dict_enter. done. Qed.

Lemma excusedata_of_source e source :
  dict_get "source" (excusedata_of e source) = Some (VStr source).
Proof. dict_enter. done. Qed.

Lemma excusedata_of_missing_builds e source :
  dict_get "missing-builds" (excusedata_of e source)
  = if set_truthy (missing_builds e) || set_truthy (missing_builds_ood_arch e)
    then Some (VDict
                 [("on-architectures", VStrs (sorted_set (missing_builds e)));
                  ("on-unimportant-architectures",
                   VStrs (sorted_set (missing_builds_ood_arch e)))])
    else None.
Proof.
  dict_enter.
  destruct (set_truthy (missing_builds e) || set_truthy (missing_builds_ood_arch e)).
  - apply dict_get_set_eq.
  - dict_skip. done.
Qed.

Lemma excusedata_of_invalidated e source :
  dict_get "invalidated-by-other-package" (excusedata_of e source)
  = if set_truthy (all_invalid_deps e) then Some (VBool true) else None.
Proof.
  dict_enter. destruct (set_truthy (all_invalid_deps e)).
  - apply dict_get_set_eq.
  - dict_skip. done.
Qed.

Lemma excusedata_of_dependencies e source :
  dict_get "dependencies" (excusedata_of e source)
  = if list_truthy (all_deps e) || set_truthy (all_invalid_deps e)
       || list_truthy (break_deps e) || list_truthy (unsat_deps e)
    then Some (VDict (dependencies_data e)) else None.
Proof.
  dict_enter.
  destruct (list_truthy (all_deps e) || set_truthy (all_invalid_deps e)
            || list_truthy (break_deps e) || list_truthy (unsat_deps e)).
  - apply dict_get_set_eq.
  - dict_skip. done.
Qed.

Lemma dependencies_data_blocked_by e :
  dict_get "blocked-by" (dependencies_data e)
  = if set_truthy (all_invalid_deps e)
    then Some (VStrs (sorted_set (all_invalid_deps e))) else None.
Proof.
  unfold dependencies_data. dict_skip.
  destruct (set_truthy (all_invalid_deps e)); [apply dict_get_set_eq | done].
Qed.

Lemma dependencies_data_migrate_after e :
  dict_get "migrate-after" (dependencies_data e)
  = let migrate_after :=
      sorted_set (list_to_set (dict_keys (all_deps e)) ∖ all_invalid_deps e) in
    if list_truthy migrate_after then Some (VStrs migrate_after) else None.
Proof.
  unfold dependencies_data. dict_skip. simpl.
  destruct (list_truthy _); [apply dict_get_set_eq |].
  by destruct (set_truthy (all_invalid_deps e)).
Qed.

Lemma string_app_empty_r (x : string) : x ++ EmptyString = x.
Proof.
  induction x as [|c x IH]; [done|].
  change (String c (x ++ EmptyString) = String c x). by rewrite IH.
Qed.

Lemma _text_htmlline e : _text e = htmlline e.
Proof.
  unfold _text.
  assert (H : forall l acc,
             fold_left (fun res x => append res (EmptyString ++ x ++ EmptyString))
               l acc = (acc ++ l)%list).
  { induction l as [|x l IH]; intros acc.
    - simpl. by rewrite app_nil_r.
    - cbn [fold_left]. rewrite IH. unfold append.
      change (EmptyString ++ x ++ EmptyString) with (x ++ EmptyString).
      rewrite string_app_empty_r. by rewrite <- app_assoc. }
  apply H.
Qed.

Lemma string_app_assoc (a b c : string) : (a ++ b) ++ c = a ++ (b ++ c).
Proof.
  induction a as [|x a IH]; [done|].
  change (String x ((a ++ b) ++ c) = String x (a ++ (b ++ c))). by rewrite IH.
Qed.

Lemma set_truthy_union_singleton (s : gset string) x :
  set_truthy (s ∪ {[ x ]}) = true.
Proof.
  unfold set_truthy. rewrite bool_decide_eq_false_2; [done | set_solver].
Qed.

Lemma VStrs_truthy_not_empty l : list_truthy l = true -> VStrs l <> VList [].
Proof. by destruct l. Qed.

(** ** Missing builds *)

(** C2: what [missing_build_on_ood_arch] does.  The architecture is added to
    [missing_builds], the set [missing_build_on_arch] writes, and
    [missing_builds_ood_arch] is left as it was.  The document therefore
    lists the architecture under "on-architectures", and lists it under
    "on-unimportant-architectures" only when it was in
    [missing_builds_ood_arch] before the call; on a fresh record that list
    is empty. *)
Theorem missing_build_on_ood_arch_writes_missing_builds
    (e : Excuse) (arch source : string) :
  missing_build_on_ood_arch arch e = missing_build_on_arch arch e
  /\ missing_builds_ood_arch (missing_build_on_ood_arch arch e)
     = missing_builds_ood_arch e
  /\ dict_get "missing-builds"
       (excusedata_of (missing_build_on_ood_arch arch e) source)
     = Some (VDict
               [("on-architectures",
                 VStrs (sorted_set (missing_builds e ∪ {[ arch ]})));
                ("on-unimportant-architectures",
                 VStrs (sorted_set (missing_builds_ood_arch e)))])
  /\ arch ∈ sorted_set (missing_builds (missing_build_on_ood_arch arch e))
  /\ (arch ∈ sorted_set
               (missing_builds_ood_arch (missing_build_on_ood_arch arch e))
      <-> arch ∈ missing_builds_ood_arch e)
  /\ excusedata (missing_build_on_ood_arch "amd64" (__init__ "foo"))
     = Ok [("excuses", VList []); ("item-name", VStr "foo");
           ("source", VStr "foo");
           ("migration-policy-verdict", VStr "REJECTED_PERMANENTLY");
           ("old-version", VStr "-"); ("new-version", VStr "-");
           ("missing-builds",
            VDict [("on-architectures", VList [VStr "amd64"]);
                   ("on-unimportant-architectures", VList [])]);
           ("reason", VList []); ("is-candidate", VBool false)].
Proof.
  repeat split.
  - rewrite excusedata_of_missing_builds. simpl.
    by rewrite set_truthy_union_singleton.
  - apply sorted_set_elem_of. simpl. set_solver.
  - intros H. by apply sorted_set_elem_of in H.
  - intros H. by apply sorted_set_elem_of.
Qed.

(** ** Dependencies *)

(** C3, as the spec states it, fails on scenario B: the document has no
    "migrate-after" entry holding the empty list. *)
Lemma scenario_B_migrate_after_not_empty_list :
  ~ (exists doc deps,
        excusedata scenario_B = Ok doc
        /\ dict_get "dependencies" doc = Some (VDict deps)
        /\ dict_get "blocked-by" deps = Some (VStrs ["libbar"])
        /\ dict_get "migrate-after" deps = Some (VList [])
        /\ dict_get "invalidated-by-other-package" doc = Some (VBool true)).
Proof.
  intros (doc & deps & Hdoc & Hdeps & _ & Hafter & _).
  vm_compute in Hdoc. injection Hdoc as <-.
  vm_compute in Hdeps. injection Hdeps as <-.
  vm_compute in Hafter. discriminate Hafter.
Qed.

(** C3, amended: for every record whose only dependency edge is
    [all_deps["libbar"][DEPENDS] = ["amd64"]] and whose only invalidated
    dependency is "libbar", the document has a dependencies sub-document
    with "blocked-by" equal to [["libbar"]] and no "migrate-after" key, and
    has "invalidated-by-other-package" true ([excusedata] raises only when
    the name has no source).  Scenario B is such a record.  For every
    record, "migrate-after" is present exactly when the sorted [all_deps]
    keys outside [all_invalid_deps] are not empty, and then holds them. *)
Theorem scenario_B_document (e : Excuse) (source : string) :
  all_deps e = [("libbar", [(DEPENDS, ["amd64"])])] ->
  all_invalid_deps e = {[ "libbar" ]} ->
  (dict_get "dependencies" (excusedata_of e source)
   = Some (VDict (dependencies_data e))
   /\ dict_get "blocked-by" (dependencies_data e) = Some (VStrs ["libbar"])
   /\ dict_get "migrate-after" (dependencies_data e) = None
   /\ dict_get "invalidated-by-other-package" (excusedata_of e source)
      = Some (VBool true))
  /\ match excusedata e with
     | Ok doc =>
         exists deps,
           dict_get "dependencies" doc = Some (VDict deps)
           /\ dict_get "blocked-by" deps = Some (VStrs ["libbar"])
           /\ dict_get "migrate-after" deps = None
           /\ dict_get "invalidated-by-other-package" doc = Some (VBool true)
     | Raise x => derive_source (name e) = Raise x
     end
  /\ all_deps scenario_B = [("libbar", [(DEPENDS, ["amd64"])])]
  /\ all_invalid_deps scenario_B = {[ "libbar" ]}
  /\ (exists doc deps,
        excusedata scenario_B = Ok doc
        /\ dict_get "dependencies" doc = Some (VDict deps)
        /\ dict_get "blocked-by" deps = Some (VStrs ["libbar"])
        /\ dict_get "migrate-after" deps = None
        /\ dict_get "invalidated-by-other-package" doc = Some (VBool true))
  /\ (forall e0 : Excuse,
        let migrate_after :=
          sorted_set
            (list_to_set (dict_keys (all_deps e0)) ∖ all_invalid_deps e0) in
        dict_get "migrate-after" (dependencies_data e0)
        = (if list_truthy migrate_after then Some (VStrs migrate_after)
           else None)
        /\ dict_get "migrate-after" (dependencies_data e0) <> Some (VList [])).
Proof.
  intros Hdeps Hinv.
  assert (Hany : forall src,
            dict_get "dependencies" (excusedata_of e src)
            = Some (VDict (dependencies_data e))
            /\ dict_get "blocked-by" (dependencies_data e)
               = Some (VStrs ["libbar"])
            /\ dict_get "migrate-after" (dependencies_data e) = None
            /\ dict_get "invalidated-by-other-package" (excusedata_of e src)
               = Some (VBool true)).
  { intros src.
    rewrite excusedata_of_dependencies, excusedata_of_invalidated,
      dependencies_data_blocked_by, dependencies_data_migrate_after.
    rewrite Hdeps, Hinv. cbv zeta.
    replace (set_truthy {[ "libbar" ]}) with true by (by vm_compute).
    replace (sorted_set {[ "libbar" ]}) with ["libbar"] by (by vm_compute).
    replace (sorted_set
               (list_to_set
                  (dict_keys [("libbar", [(DEPENDS, ["amd64"])])])
                ∖ {[ "libbar" ]}))
      with (@nil string) by (by vm_compute).
    done. }
  split; [apply Hany|]. split.
  { unfold excusedata.
    destruct (derive_source (name e)) as [src|x]; simpl; [|done].
    exists (dependencies_data e). apply Hany. }
  split; [by vm_compute|]. split; [by vm_compute|]. split.
  - exists (excusedata_of scenario_B "libfoo"), (dependencies_data scenario_B).
    repeat split; vm_compute; reflexivity.
  - intros e0 migrate_after. rewrite dependencies_data_migrate_after.
    fold migrate_after. cbv zeta. split; [done|].
    destruct (list_truthy migrate_after) eqn:Ht; [|done].
    intros H. apply (VStrs_truthy_not_empty migrate_after Ht). congruence.
Qed.

Lemma scenario_B_document_witness :
  dict_get "blocked-by" (dependencies_data (with_needs_approval true scenario_B))
  = Some (VStrs ["libbar"])
  /\ dict_get "migrate-after" (dependencies_data scenario_B) = None.
Proof.
  split.
  - apply (scenario_B_document (with_needs_approval true scenario_B) "libfoo");
      vm_compute; reflexivity.
  - apply (scenario_B_document scenario_B "libfoo"); vm_compute; reflexivity.
Defined.

(** ** The source of an item *)

Lemma derive_source_by_spec name :
  derive_source name
  = if truthy (before "/" (before "_" name))
    then Ok (source_by_spec name) else Raise IndexError.
Proof.
  unfold derive_source, source_by_spec.
  assert (H1 : (if contains "_" name then split0 "_" name else name)
               = before "_" name).
  { destruct (contains "_" name) eqn:Hc; [apply split0_before|].
    by rewrite before_no_sep. }
  rewrite H1.
  assert (H2 : (if contains "/" (before "_" name)
                then split0 "/" (before "_" name) else before "_" name)
               = before "/" (before "_" name)).
  { destruct (contains "/" _) eqn:Hc; [apply split0_before|].
    symmetry. by apply before_no_sep. }
  rewrite H2.
  by destruct (before "/" (before "_" name)).
Qed.

(** C5, as the spec states it, fails for the name "_1.0": no document is
    produced, so there is no source field. *)
Lemma source_of_empty_stem_raises :
  ~ (exists doc,
        excusedata (__init__ "_1.0") = Ok doc
        /\ dict_get "source" doc = Some (VStr (source_by_spec "_1.0"))).
Proof. intros (doc & Hdoc & _). vm_compute in Hdoc. discriminate Hdoc. Qed.

(** C5, amended: when the part of the name before its first '_' and then
    before its first '/' is not empty, the document's source is that part
    with one leading '-' removed; when it is empty [excusedata] raises
    [IndexError].  The four names of the spec give "foo". *)
Theorem source_derivation (e : Excuse) :
  let stem := before "/" (before "_" (name e)) in
  derive_source (name e)
  = (if truthy stem then Ok (strip_leading_dash stem) else Raise IndexError)
  /\ excusedata e
     = (if truthy stem then Ok (excusedata_of e (strip_leading_dash stem))
        else Raise IndexError)
  /\ dict_get "source" (excusedata_of e (strip_leading_dash stem))
     = Some (VStr (source_by_spec (name e)))
  /\ derive_source "foo_1.0" = Ok "foo"
  /\ derive_source "foo/amd64" = Ok "foo"
  /\ derive_source "-foo" = Ok "foo"
  /\ derive_source "foo" = Ok "foo".
Proof.
  intros stem.
  split; [apply derive_source_by_spec|].
  split.
  { unfold excusedata. rewrite derive_source_by_spec. fold stem.
    by destruct (truthy stem). }
  split; [apply excusedata_of_source|].
  repeat split; vm_compute; reflexivity.
Qed.

(** ** The sort key *)

Lemma sortkey_order_presented a b :
  age_not_negative a -> age_not_negative b ->
  tuple_leb (sortkey a) (sortkey b) = true -> presented_before a b.
Proof.
  unfold age_not_negative, presented_before, sortkey.
  rewrite tuple_leb_spec.
  destruct (daysold a) as [x|], (daysold b) as [y|]; simpl; intros Ha Hb H.
  - exact H.
  - lia.
  - exact I.
  - destruct H as [H | [_ H]]; [lia | exact H].
Qed.

(** C6, as the spec states it, fails: a record whose age was set to -1
    has the key [(-1, name)] although its age is set, and a record with an
    earlier (negative) age sorts before a record of unknown age. *)
Lemma sortkey_minus_one_with_age_set :
  ~ (sortkey negative_age = (-1, name negative_age)
     <-> daysold negative_age = None)
  /\ sort_excuses [unknown_age; early_age] = [early_age; unknown_age].
Proof.
  split; [|reflexivity].
  intros [H _]. discriminate (H eq_refl).
Qed.

(** C6, amended: for every record [sortkey] returns [(-1, name)] when the
    age is unset and [(daysold, name)] otherwise, and sorting by the key
    gives a rearrangement of the records that is ordered by the keys.
    When no age is negative, the key is [(-1, name)] exactly for an unset
    age, and the sorted records have unknown ages first, then ascending
    ages, equal ages ordered by name. *)
Theorem sortkey_orders_excuses (e : Excuse) (l : list Excuse) :
  sortkey e = match daysold e with
              | None => (-1, name e)
              | Some d => (d, name e)
              end
  /\ (daysold e = None -> sortkey e = (-1, name e))
  /\ (forall d, daysold e = Some d -> sortkey e = (d, name e))
  /\ (age_not_negative e ->
      (sortkey e = (-1, name e) <-> daysold e = None))
  /\ Permutation l (sort_excuses l)
  /\ StronglySorted
       (fun a b => tuple_leb (sortkey a) (sortkey b) = true) (sort_excuses l)
  /\ (Forall age_not_negative l ->
      StronglySorted presented_before (sort_excuses l)).
Proof.
  assert (Hperm : Permutation l (sort_excuses l))
    by apply sorted_by_perm.
  assert (Hsorted : StronglySorted
            (fun a b => tuple_leb (sortkey a) (sortkey b) = true)
            (sort_excuses l)).
  { apply (sorted_by_sorted tuple_leb sortkey).
    - apply tuple_leb_total.
    - apply tuple_leb_trans. }
  split; [done|].
  split; [by unfold sortkey; intros ->|].
  split; [by unfold sortkey; intros d ->|].
  split.
  { unfold sortkey, age_not_negative.
    destruct (daysold e) as [d|]; [|done].
    intros Hd. split; [|done]. intros [= H]. lia. }
  split; [done|]. split; [done|].
  intros Hage.
  apply (StronglySorted_impl_Forall age_not_negative
           (fun a b => tuple_leb (sortkey a) (sortkey b) = true)).
  - apply sortkey_order_presented.
  - by rewrite <- Hperm.
  - exact Hsorted.
Qed.

Lemma sortkey_orders_excuses_witness :
  StronglySorted presented_before
    (sort_excuses
       [setdaysold (Some 3) (Some 5) (__init__ "b"); __init__ "z";
        setdaysold (Some 3) (Some 5) (__init__ "a"); __init__ "c";
        setdaysold (Some 0) (Some 5) (__init__ "d")])
  /\ (sortkey (setdaysold (Some 0) (Some 5) (__init__ "d")) = (-1, "d")
      <-> daysold (setdaysold (Some 0) (Some 5) (__init__ "d")) = None).
Proof.
  split.
  - apply (sortkey_orders_excuses (__init__ "z")
             [setdaysold (Some 3) (Some 5) (__init__ "b"); __init__ "z";
              setdaysold (Some 3) (Some 5) (__init__ "a"); __init__ "c";
              setdaysold (Some 0) (Some 5) (__init__ "d")]).
    repeat constructor; unfold age_not_negative; simpl; lia.
  - apply (sortkey_orders_excuses
             (setdaysold (Some 0) (Some 5) (__init__ "d")) []).
    unfold age_not_negative. simpl. lia.
Defined.

(** ** The HTML rendering of a bare record *)

Lemma html_no_optional_fields e :
  maint e = None -> section e = None -> daysold e = None ->
  htmlline e = [] -> all_deps e = [] -> break_deps e = [] ->
  html e = Ok (html_header e ++ html_verdict_line e ++ html_closing).
Proof.
  intros Hm Hs Hd Hh Ha Hb. unfold html, html_age, _render_dep_issues.
  rewrite Hm, Hs, Hd, Hh, Ha, Hb. simpl.
  rewrite !string_app_empty_r. by rewrite string_app_assoc.
Qed.

(** C8: for a record on which only the name and the versions were set
    (and, as well, for any verdict assigned to it), [html] returns, and
    returns the header line with the anchor and the two versions, the
    migration status line and the closing markup, nothing else. *)
Theorem html_of_bare_record
    (name : string) (tver uver : option string) (value : PolicyVerdict) :
  let bare := set_vers tver uver (__init__ name) in
  let text (e : Excuse) :=
    ("<a id=" ++ dq ++ name ++ dq ++ " name=" ++ dq ++ name ++ dq ++ ">"
       ++ name ++ "</a> (" ++ fst (ver bare) ++ " to " ++ snd (ver bare) ++ ")"
       ++ nl ++ "<ul>" ++ nl)
    ++ ("<li>Migration status: " ++ _format_verdict_summary e ++ nl)
    ++ ("</ul>" ++ nl) in
  html bare = Ok (text bare)
  /\ _format_verdict_summary bare = "BLOCKED: Rejected/introduces a regression"
  /\ html (set_policy_verdict value bare)
     = Ok (text (set_policy_verdict value bare))
  /\ ver bare
     = (if truthy_opt tver then default EmptyString tver else "-",
        if truthy_opt uver then default EmptyString uver else "-").
Proof.
  intros bare text.
  assert (Hbare : forall e, e = bare \/ e = set_policy_verdict value bare ->
                            html e = Ok (text e)).
  { intros e He. rewrite html_no_optional_fields.
    - unfold text, html_header, html_verdict_line, html_closing.
      by destruct He as [-> | ->];
        unfold bare, set_vers; repeat case_match.
    - by destruct He as [-> | ->]; unfold bare, set_vers; repeat case_match.
    - by destruct He as [-> | ->]; unfold bare, set_vers; repeat case_match.
    - by destruct He as [-> | ->]; unfold bare, set_vers; repeat case_match.
    - by destruct He as [-> | ->]; unfold bare, set_vers; repeat case_match.
    - by destruct He as [-> | ->]; unfold bare, set_vers; repeat case_match.
    - by destruct He as [-> | ->]; unfold bare, set_vers; repeat case_match. }
  split; [apply Hbare; by left|].
  split; [by unfold bare, set_vers; repeat case_match|].
  split; [apply Hbare; by right|].
  unfold bare, set_vers.
  destruct (truthy_opt tver), (truthy_opt uver); reflexivity.
Qed.

(** ** A fresh record *)

Lemma run_call_name c e : name (run_call c e) = name e.
Proof.
  destruct c; simpl; try done;
    unfold set_vers, add_sane_dep, add_break_dep, add_unsatisfiable_on_arch,
      force;
    repeat case_match; done.
Qed.

Lemma run_calls_name cs e : name (run_calls cs e) = name e.
Proof.
  induction cs as [|c cs IH] using rev_ind; [done|].
  by rewrite run_calls_snoc, run_call_name.
Qed.

Lemma run_calls_keep_verdict cs e :
  forallb (fun c => negb (writes_verdict c)) cs = true ->
  _policy_verdict (run_calls cs e) = _policy_verdict e.
Proof.
  induction cs as [|c cs IH] using rev_ind; [done|].
  rewrite forallb_app, andb_true_iff. simpl. rewrite andb_true_r.
  intros [Hcs Hc%negb_true_iff]. rewrite run_calls_snoc.
  destruct (other_calls_keep_verdict c (run_calls cs e) Hc) as [-> _]. auto.
Qed.

Lemma excusedata_cases e :
  match excusedata e with
  | Ok doc => exists source,
      derive_source (name e) = Ok source /\ doc = excusedata_of e source
  | Raise x => derive_source (name e) = Raise x
  end.
Proof.
  unfold excusedata. destruct (derive_source (name e)) as [source|x]; simpl; eauto.
Qed.

(** C9: a record just built by [__init__] holds [REJECTED_PERMANENTLY], so
    [is_valid] is false and the document has "is-candidate" false
    ([excusedata] raises only when the name has no source); this stays so
    through any calls other than an assignment of the verdict or
    [force]. *)
Theorem fresh_record_is_rejected (name : string) (cs : list call) :
  forallb (fun c => negb (writes_verdict c)) cs = true ->
  _policy_verdict (__init__ name) = REJECTED_PERMANENTLY
  /\ is_valid (__init__ name) = false
  /\ is_valid (run_calls cs (__init__ name)) = false
  /\ (forall source,
        dict_get "is-candidate"
          (excusedata_of (run_calls cs (__init__ name)) source)
        = Some (VBool false))
  /\ match excusedata (run_calls cs (__init__ name)) with
     | Ok doc => dict_get "is-candidate" doc = Some (VBool false)
     | Raise x => derive_source name = Raise x
     end.
Proof.
  intros Hcs.
  assert (Hv : is_valid (run_calls cs (__init__ name)) = false).
  { unfold is_valid. by rewrite run_calls_keep_verdict. }
  repeat split; try done.
  - intros source. by rewrite excusedata_of_is_candidate, Hv.
  - pose proof (excusedata_cases (run_calls cs (__init__ name))) as H.
    rewrite run_calls_name in H. simpl in H.
    destruct (excusedata _) as [doc|x]; [|done].
    destruct H as (source & _ & ->).
    by rewrite excusedata_of_is_candidate, Hv.
Qed.

Lemma fresh_record_is_rejected_witness :
  is_valid
    (run_calls [Call_addhtml "note"; Call_setdaysold (Some 1) (Some 2);
                Call_missing_build_on_arch "amd64"] (__init__ "foo"))
  = false
  /\ is_valid (run_calls [] (__init__ "foo")) = false.
Proof.
  split.
  - apply (fresh_record_is_rejected "foo"
             [Call_addhtml "note"; Call_setdaysold (Some 1) (Some 2);
              Call_missing_build_on_arch "amd64"]).
    reflexivity.
  - apply (fresh_record_is_rejected "foo" []). reflexivity.
Defined.

(** ** The notes in the document *)

(** C10: whatever the record holds, the document has an "excuses" key and
    its value is the list of the notes added by [addhtml], in the order
    they were added ([excusedata] raises only when the name has no
    source). *)
Theorem excuses_key_holds_htmlline (e : Excuse) :
  (forall source,
     dict_get "excuses" (excusedata_of e source) = Some (VStrs (htmlline e)))
  /\ match excusedata e with
     | Ok doc => dict_get "excuses" doc = Some (VStrs (htmlline e))
     | Raise x => derive_source (name e) = Raise x
     end
  /\ _text e = htmlline e
  /\ (forall note, htmlline (addhtml note e) = (htmlline e ++ [note])%list)
  /\ (forall notes,
        htmlline (run_calls (map Call_addhtml notes) e)
        = (htmlline e ++ notes)%list).
Proof.
  split; [|split; [|split; [|split]]].
  - intros source. rewrite excusedata_of_excuses. by rewrite _text_htmlline.
  - pose proof (excusedata_cases e) as H.
    destruct (excusedata e) as [doc|x]; [|done].
    destruct H as (source & _ & ->).
    rewrite excusedata_of_excuses. by rewrite _text_htmlline.
  - apply _text_htmlline.
  - done.
  - intros notes. revert e.
    induction notes as [|n notes IH]; intros e; simpl.
    + by rewrite app_nil_r.
    + unfold run_calls in IH. rewrite IH. simpl. unfold append.
      by rewrite <- app_assoc.
Qed.

(** * Further properties of the methods *)

(** ** Versions *)

(** X1: [set_vers] merges: setting the two sides one after the other, in
    either order, gives what setting both at once gives; a side given as
    [None] or as the empty string is left as it was. *)
Theorem set_vers_merges (t u : string) (e : Excuse) :
  truthy t = true -> truthy u = true ->
  set_vers None (Some u) (set_vers (Some t) None e)
  = set_vers (Some t) (Some u) e
  /\ set_vers (Some t) None (set_vers None (Some u) e)
     = set_vers (Some t) (Some u) e
  /\ ver (set_vers (Some t) (Some u) e) = (t, u)
  /\ ver (set_vers (Some t) None e) = (t, snd (ver e))
  /\ ver (set_vers None (Some u) e) = (fst (ver e), u)
  /\ set_vers (Some t) (Some EmptyString) e = set_vers (Some t) None e
  /\ set_vers (Some EmptyString) (Some u) e = set_vers None (Some u) e
  /\ set_vers None None e = e
  /\ set_vers (Some EmptyString) (Some EmptyString) e = e.
Proof.
  intros Ht Hu. unfold set_vers. simpl. rewrite Ht, Hu. simpl.
  repeat split.
Qed.

Lemma set_vers_merges_witness :
  set_vers None (Some "1.1") (set_vers (Some "1.0") None (__init__ "foo"))
  = set_vers (Some "1.0") (Some "1.1") (__init__ "foo").
Proof. apply (set_vers_merges "1.0" "1.1" (__init__ "foo")); reflexivity. Defined.

(** ** The force hint *)

(** X2: [force] is idempotent: a second call reports no change and leaves
    the record of the first call as it is. *)
Theorem force_twice (e : Excuse) :
  force (snd (force e)) = (false, snd (force e)).
Proof.
  unfold force. simpl.
  destruct (is_rejected (_policy_verdict e)) eqn:Hr; simpl; [done|].
  by rewrite Hr.
Qed.

(** X3: assigning a verdict and forcing commute: forcing a record and then
    assigning [value] gives the record that assigning [value] and then
    forcing gives, and its verdict is [PASS_HINTED] when [value] is
    rejected and [value] otherwise. *)
Theorem force_commutes_with_assignment (value : PolicyVerdict) (e : Excuse) :
  set_policy_verdict value (snd (force e))
  = snd (force (set_policy_verdict value e))
  /\ _policy_verdict (set_policy_verdict value (snd (force e)))
     = (if is_rejected value then PASS_HINTED else value).
Proof.
  unfold force, set_policy_verdict. simpl.
  destruct (is_rejected (_policy_verdict e)) eqn:Hr, (forced e) eqn:Hf,
    (is_rejected value) eqn:Hv; simpl; rewrite ?Hv; simpl; done.
Qed.

(** ** More on dictionaries *)

Section DictMore.
Context {K V : Type} `{EqDecision K}.
Implicit Types (k : K) (v : V) (d : list (K * V)).

Lemma dict_get_None k d : dict_get k d = None <-> k ∉ dict_keys d.
Proof.
  induction d as [|[k' v'] d IH]; simpl.
  - split; [intros _; apply not_elem_of_nil | done].
  - rewrite not_elem_of_cons. destruct (decide (k' = k)) as [->|Hne].
    + split; [done | intros [? _]; done].
    + rewrite IH. split; [intros ?; split; [congruence | done] | by intros [_ ?]].
Qed.

Lemma dict_get_elem k v d : dict_get k d = Some v -> (k, v) ∈ d.
Proof.
  induction d as [|[k' v'] d IH]; simpl; [done|].
  destruct (decide (k' = k)) as [->|Hne].
  - intros [= ->]. apply elem_of_cons. by left.
  - intros Hd. apply elem_of_cons. right. by apply IH.
Qed.

Lemma dict_mem_true k d : dict_mem k d = true <-> k ∈ dict_keys d.
Proof.
  unfold dict_mem. destruct (dict_get k d) as [v|] eqn:Hd.
  - split; [intros _ | done].
    apply dict_get_elem in Hd. unfold dict_keys.
    apply list_elem_of_fmap. by exists (k, v).
  - apply dict_get_None in Hd. split; [done | intros ?; done].
Qed.

Lemma dict_keys_set k v d :
  dict_keys (dict_set k v d)
  = if dict_mem k d then dict_keys d else (dict_keys d ++ [k])%list.
Proof.
  unfold dict_mem. induction d as [|[k' v'] d IH]; simpl; [done|].
  destruct (decide (k' = k)) as [->|Hne]; simpl; [done|].
  rewrite IH. by destruct (dict_get k d).
Qed.

Lemma dict_set_NoDup k v d :
  NoDup (dict_keys d) -> NoDup (dict_keys (dict_set k v d)).
Proof.
  intros Hd. rewrite dict_keys_set.
  destruct (dict_mem k d) eqn:Hm; [done|].
  apply NoDup_app. split; [done|]. split; [|apply NoDup_singleton].
  intros x Hx Hk. apply list_elem_of_singleton in Hk as ->.
  apply dict_mem_true in Hx. congruence.
Qed.

Lemma dict_set_Forall (P : K * V -> Prop) k v d :
  Forall P d -> P (k, v) -> Forall P (dict_set k v d).
Proof.
  intros Hd Hkv. induction Hd as [|[k' v'] d Hx Hd IH]; simpl.
  - by constructor.
  - destruct (decide (k' = k)); by constructor.
Qed.

Lemma dict_set_not_nil k v d : dict_set k v d <> [].
Proof. destruct d as [|[k' v'] d]; simpl; [done|]. by destruct (decide (k' = k)). Qed.

Lemma dict_set_set k v v' d : dict_set k v (dict_set k v' d) = dict_set k v d.
Proof.
  induction d as [|[k0 v0] d IH]; simpl.
  - by rewrite decide_True.
  - destruct (decide (k0 = k)) as [->|Hne]; simpl.
    + by rewrite decide_True.
    + rewrite decide_False by done. by rewrite IH.
Qed.
End DictMore.

(** ** Dependencies *)

Lemma add_dependency_all_deps deptype name arch e :
  let kinds := default [] (dict_get name (all_deps e)) in
  let archs := default [] (dep_archs name deptype (all_deps e)) in
  all_deps (add_dependency deptype name arch e)
  = dict_set name (dict_set deptype (append archs arch) kinds) (all_deps e).
Proof.
  unfold add_dependency, dep_archs, dict_mem. simpl.
  destruct (dict_get name (all_deps e)) as [kinds|] eqn:Hn; simpl.
  - rewrite Hn. simpl.
    destruct (dict_get deptype kinds) as [archs|] eqn:Hk; simpl.
    + by rewrite Hk.
    + by rewrite dict_get_set_eq, dict_set_set.
  - rewrite dict_get_set_eq. simpl.
    destruct (decide (deptype = deptype)); [simpl | done].
    by rewrite dict_set_set.
Qed.

(** X4: after [add_dependency(deptype, name, arch)] the list under
    [all_deps[name][deptype]] is the list that was there (none counts as
    empty) with [arch] appended, so two calls leave both architectures in
    call order and duplicates are kept; the list of every other name or
    kind is untouched. *)
Theorem add_dependency_appends_arch
    (deptype : DependencyType) (name arch : string) (e : Excuse) :
  let old := default [] (dep_archs name deptype (all_deps e)) in
  dep_archs name deptype (all_deps (add_dependency deptype name arch e))
  = Some (old ++ [arch])%list
  /\ (forall arch',
        dep_archs name deptype
          (all_deps (add_dependency deptype name arch'
                       (add_dependency deptype name arch e)))
        = Some (old ++ [arch; arch'])%list)
  /\ (forall name' deptype',
        (name', deptype') <> (name, deptype) ->
        dep_archs name' deptype' (all_deps (add_dependency deptype name arch e))
        = dep_archs name' deptype' (all_deps e)).
Proof.
  intros old.
  assert (Hone : forall a e',
            dep_archs name deptype (all_deps (add_dependency deptype name a e'))
            = Some (default [] (dep_archs name deptype (all_deps e')) ++ [a])%list).
  { intros a e'. rewrite add_dependency_all_deps. cbv zeta.
    unfold dep_archs at 1. rewrite dict_get_set_eq.
    by rewrite dict_get_set_eq. }
  split; [apply Hone|]. split.
  - intros arch'. rewrite Hone, Hone. simpl. fold old.
    by rewrite <- app_assoc.
  - intros name' deptype' Hne. rewrite add_dependency_all_deps. cbv zeta.
    unfold dep_archs at 1.
    destruct (decide (name' = name)) as [->|Hn].
    + assert (Hk : deptype' <> deptype) by congruence.
      rewrite dict_get_set_eq, dict_get_set_ne by done.
      unfold dep_archs. by destruct (dict_get name (all_deps e)).
    + by rewrite dict_get_set_ne.
Qed.

Lemma add_dependency_appends_arch_witness :
  dep_archs "libbar" DEPENDS
    (all_deps (add_dependency (OTHER_KIND "Build-Depends") "libbar" "i386"
                 (add_dependency DEPENDS "libbar" "amd64" (__init__ "foo"))))
  = dep_archs "libbar" DEPENDS
      (all_deps (add_dependency DEPENDS "libbar" "amd64" (__init__ "foo"))).
Proof.
  apply (add_dependency_appends_arch (OTHER_KIND "Build-Depends") "libbar" "i386").
  discriminate.
Defined.

(** ** What every call keeps *)

Lemma run_calls_keep (I : Excuse -> Prop) cs e :
  (forall c e', I e' -> I (run_call c e')) -> I e -> I (run_calls cs e).
Proof.
  intros Hstep He. induction cs as [|c cs IH] using rev_ind; [done|].
  rewrite run_calls_snoc. by apply Hstep.
Qed.

Lemma other_calls_keep_all_deps c e :
  dependency_name_of c = None -> all_deps (run_call c e) = all_deps e.
Proof.
  destruct c; simpl; try done; intros _;
    unfold set_vers, add_sane_dep, add_break_dep, add_unsatisfiable_on_arch,
      force;
    repeat case_match; done.
Qed.

Lemma add_dependency_keeps_ok deptype name arch e :
  all_deps_ok (all_deps e) ->
  all_deps_ok (all_deps (add_dependency deptype name arch e)).
Proof.
  intros [Hnd Hall]. rewrite add_dependency_all_deps. cbv zeta.
  split; [by apply dict_set_NoDup|].
  apply dict_set_Forall; [done|]. simpl.
  assert (Hk : kinds_ok (default [] (dict_get name (all_deps e)))
               \/ default [] (dict_get name (all_deps e)) = []).
  { destruct (dict_get name (all_deps e)) as [kinds|] eqn:Hn; simpl; [|by right].
    left. apply dict_get_elem in Hn. rewrite Forall_forall in Hall.
    apply (Hall (name, kinds) Hn). }
  split; [apply dict_set_not_nil|]. split.
  - apply dict_set_NoDup. destruct Hk as [(_ & Hk & _) | ->]; [done | constructor].
  - apply dict_set_Forall.
    + destruct Hk as [(_ & _ & Hk) | ->]; [done | constructor].
    + simpl. unfold append. intros H. apply (f_equal length) in H.
      rewrite length_app in H. simpl in H. lia.
Qed.

(** X5: whatever calls were made on a record since [__init__], [all_deps]
    holds no name twice and no kind twice under a name, every name has at
    least one kind, and no architecture list is empty. *)
Theorem all_deps_never_empty (cs : list call) (name : string) :
  all_deps_ok (all_deps (run_calls cs (__init__ name)))
  /\ (forall dep deptype,
        dep_archs dep deptype (all_deps (run_calls cs (__init__ name)))
        <> Some []).
Proof.
  assert (Hok : all_deps_ok (all_deps (run_calls cs (__init__ name)))).
  { apply (run_calls_keep (fun e => all_deps_ok (all_deps e))).
    - intros c e He. destruct (dependency_name_of c) eqn:Hc.
      + destruct c; try done. simpl. by apply add_dependency_keeps_ok.
      + by rewrite other_calls_keep_all_deps.
    - split; [constructor | constructor]. }
  split; [done|].
  intros dep deptype. unfold dep_archs.
  destruct Hok as [_ Hall]. rewrite Forall_forall in Hall.
  destruct (dict_get dep _) as [kinds|] eqn:Hd; [|done].
  intros Hk. apply dict_get_elem in Hd, Hk.
  apply Hall in Hd. destruct Hd as (_ & _ & Hd).
  rewrite Forall_forall in Hd. by apply Hd in Hk.
Qed.

(** ** The names [get_deps] returns *)

Lemma depends_names_cons kv d :
  depends_names (kv :: d)
  = (if dict_mem DEPENDS (snd kv) then {[ fst kv ]} else ∅) ∪ depends_names d.
Proof.
  unfold depends_names. rewrite filter_cons.
  destruct (decide (dict_mem DEPENDS (snd kv) = true)) as [->|Hn]; simpl.
  - done.
  - apply not_true_is_false in Hn. rewrite Hn. by rewrite (left_id_L ∅ (∪)).
Qed.

Lemma depends_names_set_with n v d :
  dict_mem DEPENDS v = true -> depends_names (dict_set n v d) = depends_names d ∪ {[ n ]}.
Proof.
  intros Hv. induction d as [|[k0 v0] d IH].
  - simpl. rewrite depends_names_cons. simpl. rewrite Hv.
    apply (comm_L (∪)).
  - simpl. destruct (decide (k0 = n)) as [->|Hne].
    + rewrite !depends_names_cons. simpl. rewrite Hv.
      destruct (dict_mem DEPENDS v0).
      * rewrite (comm_L (∪) _ {[ n ]}), (assoc_L (∪)).
        by rewrite (idemp_L (∪) {[ n ]}).
      * by rewrite (left_id_L ∅ (∪)), (comm_L (∪)).
    + rewrite !depends_names_cons, IH. by rewrite (assoc_L (∪)).
Qed.

Lemma depends_names_set_without n v d :
  dict_mem DEPENDS v = false ->
  (forall v0, dict_get n d = Some v0 -> dict_mem DEPENDS v0 = false) ->
  depends_names (dict_set n v d) = depends_names d.
Proof.
  intros Hv. induction d as [|[k0 v0] d IH]; intros Hold.
  - simpl. rewrite depends_names_cons. simpl. by rewrite Hv.
  - simpl in *. destruct (decide (k0 = n)) as [->|Hne].
    + rewrite !depends_names_cons. simpl. rewrite Hv, (Hold v0 eq_refl). done.
    + rewrite !depends_names_cons, IH; done.
Qed.

Lemma depends_names_elem n v d :
  dict_get n d = Some v -> dict_mem DEPENDS v = true -> n ∈ depends_names d.
Proof.
  induction d as [|[k0 v0] d IH]; simpl; [done|].
  rewrite depends_names_cons. simpl.
  destruct (decide (k0 = n)) as [->|Hne].
  - intros [= ->] ->. apply elem_of_union_l. by apply elem_of_singleton.
  - intros Hd Hv. apply elem_of_union_r. by apply IH.
Qed.

Lemma get_deps_depends_names e : get_deps e = depends_names (all_deps e).
Proof. done. Qed.

Lemma get_deps_add_dependency deptype name arch e :
  get_deps (add_dependency deptype name arch e)
  = if decide (deptype = DEPENDS) then get_deps e ∪ {[ name ]} else get_deps e.
Proof.
  rewrite !get_deps_depends_names, add_dependency_all_deps. cbv zeta.
  set (kinds := default [] (dict_get name (all_deps e))).
  set (archs := append _ arch).
  destruct (decide (deptype = DEPENDS)) as [->|Hne].
  - apply depends_names_set_with. unfold dict_mem. by rewrite dict_get_set_eq.
  - assert (Hm : dict_mem DEPENDS (dict_set deptype archs kinds)
                 = dict_mem DEPENDS kinds).
    { unfold dict_mem. by rewrite dict_get_set_ne. }
    destruct (dict_mem DEPENDS kinds) eqn:Hk.
    + rewrite depends_names_set_with by done.
      assert (Hin : name ∈ depends_names (all_deps e));
        [|rewrite (comm_L (∪));
          by apply subseteq_union_1_L, singleton_subseteq_l].
      unfold kinds in Hk.
      destruct (dict_get name (all_deps e)) as [ks|] eqn:Hn; [|done].
      by apply (depends_names_elem name ks).
    + apply depends_names_set_without; [done|].
      intros v0 Hv0. unfold kinds in Hk. by rewrite Hv0 in Hk.
Qed.

(** X6: [get_deps] grows by exactly the name when a dependency of kind
    [DEPENDS] is added, and is not changed by a dependency of any other
    kind; a fresh record has none. *)
Theorem get_deps_tracks_depends
    (deptype : DependencyType) (name arch : string) (e : Excuse) :
  get_deps (add_dependency DEPENDS name arch e) = get_deps e ∪ {[ name ]}
  /\ (deptype <> DEPENDS ->
      get_deps (add_dependency deptype name arch e) = get_deps e)
  /\ get_deps (__init__ name) = ∅.
Proof.
  split; [|split].
  - rewrite get_deps_add_dependency. by destruct (decide (DEPENDS = DEPENDS)).
  - intros Hne. rewrite get_deps_add_dependency.
    by destruct (decide (deptype = DEPENDS)).
  - done.
Qed.

Lemma get_deps_tracks_depends_witness :
  get_deps (add_dependency (OTHER_KIND "Build-Depends") "libbar" "amd64"
              (__init__ "foo"))
  = get_deps (__init__ "foo").
Proof.
  apply (proj1 (proj2 (get_deps_tracks_depends
                         (OTHER_KIND "Build-Depends") "libbar" "amd64"
                         (__init__ "foo")))).
  discriminate.
Defined.

(** ** The insertion-ordered sequences *)

Lemma append_NoDup {A} `{EqDecision A} (x : A) l :
  NoDup l -> list_mem x l = false -> NoDup (append l x).
Proof.
  intros Hl Hx. unfold append, list_mem in *.
  apply bool_decide_eq_false in Hx.
  apply NoDup_app. split; [done|]. split; [|apply NoDup_singleton].
  intros y Hy Hyx. apply list_elem_of_singleton in Hyx as ->. done.
Qed.

(** X7: whatever calls were made on a record since [__init__],
    [sane_deps], [break_deps] and [unsatisfiable_on_archs] hold no entry
    twice. *)
Theorem sequences_hold_no_duplicates (cs : list call) (name : string) :
  let e := run_calls cs (__init__ name) in
  NoDup (sane_deps e) /\ NoDup (break_deps e)
  /\ NoDup (unsatisfiable_on_archs e).
Proof.
  apply (run_calls_keep
           (fun e => NoDup (sane_deps e) /\ NoDup (break_deps e)
                     /\ NoDup (unsatisfiable_on_archs e))).
  - intros c e (Hs & Hb & Hu).
    destruct c; simpl; try done;
      unfold set_vers, add_sane_dep, add_break_dep, add_unsatisfiable_on_arch,
        force;
      repeat case_match; simpl; repeat split; try done;
      by apply append_NoDup.
  - simpl. repeat split; constructor.
Qed.

(** X8: no call ever writes [missing_builds_ood_arch]: it stays empty
    whatever calls were made since [__init__], and the
    "on-unimportant-architectures" list of the document, when the document
    has a "missing-builds" entry, is empty. *)
Theorem missing_builds_ood_arch_stays_empty
    (cs : list call) (name source : string) :
  let e := run_calls cs (__init__ name) in
  missing_builds_ood_arch e = ∅
  /\ dict_get "missing-builds" (excusedata_of e source)
     = (if set_truthy (missing_builds e)
        then Some (VDict
                     [("on-architectures",
                       VStrs (sorted_set (missing_builds e)));
                      ("on-unimportant-architectures", VList [])])
        else None).
Proof.
  intros e.
  assert (He : missing_builds_ood_arch e = ∅).
  { apply (run_calls_keep (fun e => missing_builds_ood_arch e = ∅)); [|done].
    intros c e' He'.
    destruct c; simpl; try done;
      unfold set_vers, add_sane_dep, add_break_dep, add_unsatisfiable_on_arch,
        force;
      repeat case_match; done. }
  split; [done|].
  rewrite excusedata_of_missing_builds, He.
  replace (set_truthy ∅) with false by done.
  rewrite orb_false_r.
  destruct (set_truthy (missing_builds e)); [|done].
  by vm_compute (sorted_set ∅).
Qed.

Lemma html_age_raises_without_minimum d e :
  html (setdaysold (Some d) None e) = Raise TypeError.
Proof. done. Qed.

(** X9: [setdaysold] checks nothing, and an age without a minimum breaks
    the rendering: after [setdaysold(d, None)] [html] raises [TypeError],
    whatever else the record holds.  When no call since [__init__] gave an
    age with [None] for the minimum, a record with an age also has a
    minimum and the age line is computed without an exception. *)
Theorem age_line_needs_minimum (cs : list call) (name : string) :
  forallb gives_minimum_with_age cs = true ->
  let e := run_calls cs (__init__ name) in
  (daysold e <> None -> mindays e <> None)
  /\ (exists line, html_age e = Ok line)
  /\ (forall d e0, html_age (setdaysold (Some d) None e0) = Raise TypeError)
  /\ (forall d e0, html (setdaysold (Some d) None e0) = Raise TypeError).
Proof.
  intros Hcs e.
  assert (He : daysold e <> None -> mindays e <> None).
  { unfold e. clear e. induction cs as [|c cs IH] using rev_ind; [done|].
    rewrite forallb_app, andb_true_iff in Hcs. simpl in Hcs.
    rewrite andb_true_r in Hcs. destruct Hcs as [Hcs Hc].
    rewrite run_calls_snoc. specialize (IH Hcs).
    destruct c; simpl in *; try done;
      unfold set_vers, add_sane_dep, add_break_dep, add_unsatisfiable_on_arch,
        force;
      repeat case_match; done. }
  split; [done|]. split; [|split; [done | apply html_age_raises_without_minimum]].
  unfold html_age.
  destruct (daysold e) as [d|]; [|by eexists].
  destruct (mindays e) as [m|]; [|by destruct He].
  repeat case_match; by eexists.
Qed.

Lemma age_line_needs_minimum_witness :
  exists line,
    html_age
      (run_calls [Call_setdaysold (Some 3) (Some 5); Call_addhtml "note";
                  Call_setdaysold None None; Call_setdaysold None (Some 2)]
         (__init__ "foo"))
    = Ok line.
Proof.
  apply (age_line_needs_minimum
           [Call_setdaysold (Some 3) (Some 5); Call_addhtml "note";
            Call_setdaysold None None; Call_setdaysold None (Some 2)] "foo").
  reflexivity.
Defined.

(** ** The lists of the dependencies sub-document *)

Lemma value_strs_VStrs l : value_strs (VStrs l) = l.
Proof.
  unfold value_strs, VStrs. induction l as [|x l IH]; [done|].
  simpl. f_equal. exact IH.
Qed.

Lemma list_truthy_false {A} (l : list A) : list_truthy l = false -> l = [].
Proof. by destruct l. Qed.

Lemma set_truthy_false (s : gset string) : set_truthy s = false -> s = ∅.
Proof.
  unfold set_truthy. intros H. apply negb_false_iff in H.
  by apply bool_decide_eq_true in H.
Qed.

Lemma dependencies_data_unimportant e :
  dict_get "unimportant-dependencies" (dependencies_data e)
  = let break_deps :=
      map fst (filter (fun xa => dict_mem (fst xa) (all_deps e) = false)
                 (break_deps e)) in
    if list_truthy break_deps then Some (VStrs (sorted break_deps)) else None.
Proof.
  unfold dependencies_data. dict_skip. cbv zeta.
  destruct (list_truthy (map fst _)); [apply dict_get_set_eq |].
  dict_skip. by destruct (set_truthy (all_invalid_deps e)).
Qed.

(** X10: the three name lists of the dependencies sub-document.
    "blocked-by" holds exactly the invalidated names, "migrate-after"
    exactly the names of [all_deps] that are not invalidated, and
    "unimportant-dependencies" exactly the names of the break dependencies
    that are not in [all_deps]; each list is sorted, and no name is both
    under "blocked-by" and under "migrate-after". *)
Theorem dependencies_lists (e : Excuse) (x : string) :
  let deps := dependencies_data e in
  (x ∈ doc_strs "blocked-by" deps <-> x ∈ all_invalid_deps e)
  /\ (x ∈ doc_strs "migrate-after" deps
      <-> x ∈ dict_keys (all_deps e) /\ x ∉ all_invalid_deps e)
  /\ (x ∈ doc_strs "unimportant-dependencies" deps
      <-> (exists arch, (x, arch) ∈ break_deps e)
          /\ dict_mem x (all_deps e) = false)
  /\ ~ (x ∈ doc_strs "blocked-by" deps /\ x ∈ doc_strs "migrate-after" deps)
  /\ StronglySorted (fun a b => String.leb a b = true)
       (doc_strs "blocked-by" deps)
  /\ StronglySorted (fun a b => String.leb a b = true)
       (doc_strs "migrate-after" deps)
  /\ StronglySorted (fun a b => String.leb a b = true)
       (doc_strs "unimportant-dependencies" deps).
Proof.
  intros deps. unfold deps, doc_strs.
  rewrite dependencies_data_blocked_by, dependencies_data_migrate_after,
    dependencies_data_unimportant. cbv zeta.
  set (after := sorted_set
                  (list_to_set (dict_keys (all_deps e)) ∖ all_invalid_deps e)).
  set (breaks := map fst (filter _ (break_deps e))).
  assert (Hblocked :
    match (if set_truthy (all_invalid_deps e)
           then Some (VStrs (sorted_set (all_invalid_deps e))) else None) with
    | Some v => value_strs v
    | None => []
    end = sorted_set (all_invalid_deps e)).
  { destruct (set_truthy (all_invalid_deps e)) eqn:Ht.
    - apply value_strs_VStrs.
    - apply set_truthy_false in Ht. by rewrite Ht. }
  rewrite Hblocked.
  assert (Hafter :
    match (if list_truthy after then Some (VStrs after) else None) with
    | Some v => value_strs v
    | None => []
    end = after).
  { destruct (list_truthy after) eqn:Ht.
    - apply value_strs_VStrs.
    - apply list_truthy_false in Ht. by rewrite Ht. }
  rewrite Hafter.
  assert (Hbreaks :
    match (if list_truthy breaks then Some (VStrs (sorted breaks)) else None) with
    | Some v => value_strs v
    | None => []
    end = sorted breaks).
  { destruct (list_truthy breaks) eqn:Ht.
    - apply value_strs_VStrs.
    - apply list_truthy_false in Ht. by rewrite Ht. }
  rewrite Hbreaks.
  assert (H1 : x ∈ sorted_set (all_invalid_deps e) <-> x ∈ all_invalid_deps e)
    by apply sorted_set_elem_of.
  assert (H2 : x ∈ after
               <-> x ∈ dict_keys (all_deps e) /\ x ∉ all_invalid_deps e).
  { unfold after. rewrite sorted_set_elem_of, elem_of_difference.
    by rewrite elem_of_list_to_set. }
  split; [done|]. split; [done|]. split.
  { rewrite sorted_elem_of. unfold breaks. rewrite list_elem_of_fmap. split.
    - intros ([y a] & -> & Hy). apply list_elem_of_filter in Hy as [Hm Hy].
      simpl in *. split; [by exists a | done].
    - intros [[a Ha] Hm]. exists (x, a). split; [done|].
      by apply list_elem_of_filter. }
  split; [rewrite H1, H2; tauto|].
  split; [apply sorted_is_sorted|].
  split; [apply sorted_is_sorted|]. apply sorted_is_sorted.
Qed.

(** ** Reasons *)

(** X11: the reasons of the document.  On a record that is not forced,
    "reason" is the sorted list of the reasons added and there is no
    "forced-reason" key; on a forced record the sorted reasons are under
    "forced-reason" and "reason" is the empty list.  A reason added twice
    is held once, whatever calls were made since [__init__]. *)
Theorem reasons_move_when_forced (e : Excuse) (source r : string) :
  let doc := excusedata_of e source in
  let reasons := sorted (dict_keys (reason e)) in
  dict_get "reason" doc = Some (VStrs (if forced e then [] else reasons))
  /\ dict_get "forced-reason" doc
     = (if forced e then Some (VStrs reasons) else None)
  /\ StronglySorted (fun a b => String.leb a b = true) reasons
  /\ (forall cs name,
        NoDup (dict_keys (reason (run_calls cs (__init__ name)))))
  /\ addreason r (addreason r e) = addreason r e
  /\ r ∈ dict_keys (reason (addreason r e)).
Proof.
  intros doc reasons. unfold doc, excusedata_of.
  split.
  { rewrite dict_get_set_ne by (intros ?; discriminate).
    destruct (forced e); apply dict_get_set_eq. }
  split.
  { rewrite dict_get_set_ne by (intros ?; discriminate).
    destruct (forced e).
    - rewrite dict_get_set_ne by (intros ?; discriminate).
      apply dict_get_set_eq.
    - dict_skip. done. }
  split; [apply sorted_is_sorted|]. split.
  { intros cs name.
    apply (run_calls_keep (fun e => NoDup (dict_keys (reason e))));
      [|constructor].
    intros c e' He'.
    destruct c; simpl; try done;
      unfold set_vers, add_sane_dep, add_break_dep, add_unsatisfiable_on_arch,
        force;
      repeat case_match; try done.
    by apply dict_set_NoDup. }
  split.
  { unfold addreason. simpl. by rewrite dict_set_set. }
  simpl. apply dict_mem_true. unfold dict_mem. by rewrite dict_get_set_eq.
Qed.

(** ** Sections and components *)

Lemma find_contains c s : (-1 <? find c s) = contains c s.
Proof.
  induction s as [|x s IH]; simpl; [done|].
  destruct (Ascii.eqb x c); [done|].
  rewrite <- IH. destruct (find c s <? 0) eqn:Hf.
  - apply Z.ltb_lt in Hf. symmetry. apply Z.ltb_ge. lia.
  - apply Z.ltb_ge in Hf. transitivity true; [|symmetry]; apply Z.ltb_lt; lia.
Qed.

(** X12: after [set_section(s)] the document has a "component" key exactly
    when [s] contains a '/', and its value is the part of [s] before the
    first '/'; the HTML rendering of an otherwise bare record gets a
    "Section" line under the same condition. *)
Theorem component_of_section (s source name : string) (e : Excuse) :
  dict_get "component" (excusedata_of (set_section s e) source)
  = (if contains "/" s then Some (VStr (before "/" s)) else None)
  /\ html (set_section s (__init__ name))
     = Ok (html_header (__init__ name) ++ html_verdict_line (__init__ name)
             ++ (if contains "/" s then "<li>Section: " ++ s ++ nl
                 else EmptyString)
             ++ html_closing).
Proof.
  split.
  - dict_enter. simpl. rewrite find_contains.
    assert (Ht : truthy s && contains "/" s = contains "/" s)
      by (by destruct s).
    rewrite Ht. destruct (contains "/" s).
    + rewrite dict_get_set_eq. by rewrite split0_before.
    + by destruct (truthy_opt (maint e)).
  - unfold html, html_age, _render_dep_issues. simpl. rewrite find_contains.
    assert (Ht : truthy s && contains "/" s = contains "/" s)
      by (by destruct s).
    rewrite Ht. destruct (contains "/" s); simpl;
      rewrite !string_app_empty_r, ?string_app_assoc; done.
Qed.

(** ** The per-key sets *)

(** X13: [add_unsatisfiable_dep] and [add_old_binary] add to the set kept
    under their key (a missing key counts as the empty set) and touch no
    other key; adding the same entry again changes nothing. *)
Theorem keyed_sets_accumulate (k x : string) (e : Excuse) :
  dict_get k (unsat_deps (add_unsatisfiable_dep x k e))
  = Some (default ∅ (dict_get k (unsat_deps e)) ∪ {[ x ]})
  /\ dict_get k (old_binaries (add_old_binary x k e))
     = Some (default ∅ (dict_get k (old_binaries e)) ∪ {[ x ]})
  /\ (forall k', k' <> k ->
        dict_get k' (unsat_deps (add_unsatisfiable_dep x k e))
        = dict_get k' (unsat_deps e)
        /\ dict_get k' (old_binaries (add_old_binary x k e))
           = dict_get k' (old_binaries e))
  /\ add_unsatisfiable_dep x k (add_unsatisfiable_dep x k e)
     = add_unsatisfiable_dep x k e
  /\ add_old_binary x k (add_old_binary x k e) = add_old_binary x k e.
Proof.
  assert (Hidem : forall d,
            defaultdict_add k x (defaultdict_add k x d) = defaultdict_add k x d).
  { intros d. unfold defaultdict_add. rewrite dict_get_set_eq. simpl.
    rewrite dict_set_set. f_equal.
    rewrite <- (assoc_L (∪)). by rewrite (idemp_L (∪) {[ x ]}). }
  split; [apply dict_get_set_eq|]. split; [apply dict_get_set_eq|]. split.
  { intros k' Hne. split; simpl; by apply dict_get_set_ne. }
  split.
  - unfold add_unsatisfiable_dep. simpl. by rewrite Hidem.
  - unfold add_old_binary. simpl. by rewrite Hidem.
Qed.

(** ** The derived source *)

Lemma before_no_c c s : contains c (before c s) = false.
Proof.
  induction s as [|x s IH]; simpl; [done|].
  destruct (Ascii.eqb x c) eqn:Hx; simpl; [done|]. by rewrite Hx.
Qed.

Lemma before_keeps_absent c c' s :
  contains c s = false -> contains c (before c' s) = false.
Proof.
  induction s as [|x s IH]; simpl; [done|].
  destruct (Ascii.eqb x c) eqn:Hx; [done|]. intros Hs.
  destruct (Ascii.eqb x c'); simpl; [done|]. rewrite Hx. by apply IH.
Qed.

Lemma strip_leading_dash_keeps_absent c s :
  contains c s = false -> contains c (strip_leading_dash s) = false.
Proof.
  destruct s as [|x s]; simpl; [done|].
  destruct (Ascii.eqb x c) eqn:Hx; [done|]. intros Hs.
  destruct (Ascii.eqb x "-"); simpl; [done|]. by rewrite Hx.
Qed.

(** X14: a source that [excusedata] derives never contains a '_' or a
    '/'. *)
Theorem source_has_no_separator (e : Excuse) (doc : list (string * value))
    (source : string) :
  excusedata e = Ok doc -> dict_get "source" doc = Some (VStr source) ->
  contains "_" source = false /\ contains "/" source = false.
Proof.
  intros Hdoc Hsrc.
  pose proof (excusedata_cases e) as H. rewrite Hdoc in H.
  destruct H as (s & Hs & ->). rewrite excusedata_of_source in Hsrc.
  injection Hsrc as ->. rewrite derive_source_by_spec in Hs.
  destruct (truthy _); [|done]. injection Hs as <-.
  unfold source_by_spec. split; apply strip_leading_dash_keeps_absent.
  - apply before_keeps_absent, before_no_c.
  - apply before_no_c.
Qed.

Lemma source_has_no_separator_witness :
  contains "_" "foo" = false /\ contains "/" "foo" = false.
Proof.
  apply (source_has_no_separator (__init__ "-foo/amd64_tpu")
           (excusedata_of (__init__ "-foo/amd64_tpu") "foo") "foo");
    vm_compute; reflexivity.
Defined.

(** ** When the HTML rendering returns *)

Lemma render_deptypes_bound name dep nc deptypes sn res :
  exists sn' res',
    render_deptypes name dep nc deptypes (Some sn) res = Ok (Some sn', res').
Proof.
  revert sn res. induction deptypes as [|t ts IH]; intros sn res; simpl.
  - by eexists _, _.
  - destruct (list_mem t sn); apply IH.
Qed.

Lemma render_dep_loop_bound name d inv xs lastdep sn res :
  exists out, render_dep_loop name d inv xs lastdep (Some sn) res = Ok out.
Proof.
  revert lastdep sn res. induction xs as [|x xs IH]; intros lastdep sn res.
  - by eexists.
  - cbn [render_dep_loop]. cbv zeta.
    set (seen := if bool_decide _ then Some [] else Some sn).
    assert (Hseen : exists sn0, seen = Some sn0)
      by (unfold seen; case_bool_decide; by eexists).
    destruct Hseen as [sn0 ->].
    destruct (render_deptypes_bound name (split0 "/" x)
                (bool_decide (x ∈ inv))
                (sorted_by String.leb deptype_str
                   (dict_keys (default [] (dict_get x d)))) sn0 res)
      as (sn' & res' & ->).
    simpl. apply IH.
Qed.

Lemma render_dep_loop_first name d inv x xs res :
  split0 "/" x <> EmptyString ->
  exists out, render_dep_loop name d inv (x :: xs) EmptyString None res = Ok out.
Proof.
  intros Hx. cbn [render_dep_loop]. cbv zeta.
  rewrite (bool_decide_eq_true_2 _ Hx).
  destruct (render_deptypes_bound name (split0 "/" x)
              (bool_decide (x ∈ inv))
              (sorted_by String.leb deptype_str
                 (dict_keys (default [] (dict_get x d)))) [] res)
    as (sn' & res' & ->).
  simpl. apply render_dep_loop_bound.
Qed.

Lemma render_dep_issues_returns e d inv :
  Forall (fun x => split0 "/" x <> EmptyString) (dict_keys d) ->
  exists out, _render_dep_issues e d inv = Ok out.
Proof.
  intros Hd. unfold _render_dep_issues.
  set (xs := sorted_by String.leb (split0 "/") (dict_keys d)).
  assert (Hxs : Forall (fun x => split0 "/" x <> EmptyString) xs).
  { unfold xs. by rewrite <- sorted_by_perm. }
  destruct xs as [|x xs].
  - by eexists.
  - inversion Hxs as [|? ? Hx _]; subst.
    destruct (render_dep_loop_first (name e) d inv x xs [] Hx) as [out ->].
    by eexists.
Qed.

Lemma fold_left_string_app {A} (f : A -> string) l r :
  fold_left (fun r x => r ++ f x) l r
  = r ++ String.concat EmptyString (map f l).
Proof.
  revert r. induction l as [|x l IH]; intros r.
  - simpl. by rewrite string_app_empty_r.
  - cbn [fold_left map]. rewrite IH.
    assert (Hc : String.concat EmptyString (f x :: map f l)
                 = f x ++ String.concat EmptyString (map f l)).
    { simpl. destruct (map f l); [by rewrite string_app_empty_r | done]. }
    rewrite Hc. by rewrite string_app_assoc.
Qed.

(** X15: [html] returns whenever the age, if set, comes with a minimum and
    no dependency name is empty or starts with '/'.  What it returns
    starts with the header and the migration status line and ends with the
    closing markup. *)
Theorem html_returns (e : Excuse) :
  (daysold e <> None -> mindays e <> None) ->
  Forall (fun x => split0 "/" x <> EmptyString) (dict_keys (all_deps e)) ->
  exists body,
    html e = Ok (html_header e ++ html_verdict_line e ++ body ++ html_closing).
Proof.
  intros Hage Hdeps. unfold html.
  assert (Ha : exists age, html_age e = Ok age).
  { unfold html_age. destruct (daysold e) as [d|]; [|by eexists].
    destruct (mindays e) as [m|]; [|by destruct Hage].
    repeat case_match; by eexists. }
  destruct Ha as [age ->].
  destruct (render_dep_issues_returns e (all_deps e) (all_invalid_deps e) Hdeps)
    as [deps ->].
  simpl.
  rewrite (fold_left_string_app (fun x => "<li>" ++ x ++ nl)).
  rewrite (fold_left_string_app (html_break_dep e)).
  set (notes := String.concat _ (map _ (htmlline e))).
  set (breaks := String.concat _ (map _ (break_deps e))).
  set (m := "<li>Maintainer: " ++ default EmptyString (maint e) ++ nl).
  set (s := "<li>Section: " ++ default EmptyString (section e) ++ nl).
  destruct (truthy_opt (maint e)),
    (truthy_opt (section e) && (-1 <? find "/" (default EmptyString (section e)))).
  - exists (m ++ s ++ age ++ notes ++ deps ++ breaks).
    by rewrite !string_app_assoc.
  - exists (m ++ age ++ notes ++ deps ++ breaks).
    by rewrite !string_app_assoc.
  - exists (s ++ age ++ notes ++ deps ++ breaks).
    by rewrite !string_app_assoc.
  - exists (age ++ notes ++ deps ++ breaks).
    by rewrite !string_app_assoc.
Qed.

Lemma html_returns_witness :
  exists body,
    html scenario_B
    = Ok (html_header scenario_B ++ html_verdict_line scenario_B ++ body
            ++ html_closing).
Proof.
  apply html_returns.
  - intros H. by destruct H.
  - repeat constructor; by vm_compute.
Defined.

(** ** When the HTML rendering raises *)

Lemma string_leb_empty s : String.leb s EmptyString = true -> s = EmptyString.
Proof. by destruct s. Qed.

Lemma sorted_by_head_least {A} (key : A -> string) (l : list A) x :
  x ∈ l -> key x = EmptyString ->
  exists h t, sorted_by String.leb key l = h :: t /\ key h = EmptyString
              /\ h ∈ l.
Proof.
  intros Hx Hk.
  pose proof (sorted_by_perm String.leb key l) as Hperm.
  pose proof (sorted_by_sorted String.leb key String.leb_total
                string_leb_trans l) as Hsorted.
  rewrite Hperm in Hx.
  destruct (sorted_by String.leb key l) as [|h t]; [by apply elem_of_nil in Hx|].
  exists h, t. split; [done|]. split.
  - apply elem_of_cons in Hx as [<- | Hx]; [done|].
    apply StronglySorted_inv in Hsorted as [_ Hh].
    rewrite Forall_forall in Hh. specialize (Hh x Hx). simpl in Hh.
    rewrite Hk in Hh. by apply string_leb_empty.
  - rewrite Hperm. apply elem_of_cons. by left.
Qed.

(** X16: [html] raises [UnboundLocalError] when some dependency name is
    empty or starts with '/' (its part before the first '/' is empty): the
    names are visited in the order of that part, so such a name comes
    first, and [seen] is read before it was ever assigned. *)
Theorem html_raises_on_empty_dependency_stem (e : Excuse) (x : string) :
  all_deps_ok (all_deps e) ->
  (daysold e <> None -> mindays e <> None) ->
  x ∈ dict_keys (all_deps e) -> split0 "/" x = EmptyString ->
  _render_dep_issues e (all_deps e) (all_invalid_deps e)
  = Raise UnboundLocalError
  /\ html e = Raise UnboundLocalError.
Proof.
  intros [_ Hok] Hage Hx Hstem.
  assert (Hr : _render_dep_issues e (all_deps e) (all_invalid_deps e)
               = Raise UnboundLocalError).
  { unfold _render_dep_issues.
    destruct (sorted_by_head_least (split0 "/") (dict_keys (all_deps e)) x
                Hx Hstem) as (h & t & -> & Hh & Hin).
    cbn [render_dep_loop]. cbv zeta. rewrite Hh.
    rewrite (bool_decide_eq_false_2 (EmptyString <> EmptyString))
      by (intros H; by apply H).
    apply dict_mem_true in Hin. unfold dict_mem in Hin.
    destruct (dict_get h (all_deps e)) as [kinds|] eqn:Hk; [|done].
    apply dict_get_elem in Hk. rewrite Forall_forall in Hok.
    destruct (Hok _ Hk) as (Hne & _ & _). simpl in *.
    pose proof (sorted_by_perm String.leb deptype_str (dict_keys kinds))
      as Hperm.
    destruct (sorted_by String.leb deptype_str (dict_keys kinds)) as [|k ks].
    - apply Permutation_nil_r in Hperm. by destruct kinds.
    - done. }
  split; [done|]. unfold html.
  assert (Ha : exists age, html_age e = Ok age).
  { unfold html_age. destruct (daysold e) as [d|]; [|by eexists].
    destruct (mindays e) as [m|]; [|by destruct Hage].
    repeat case_match; by eexists. }
  destruct Ha as [age ->]. simpl. by rewrite Hr.
Qed.

Lemma html_raises_on_empty_dependency_stem_witness :
  html (add_dependency DEPENDS "/usr" "amd64" scenario_B)
  = Raise UnboundLocalError.
Proof.
  apply (html_raises_on_empty_dependency_stem
           (add_dependency DEPENDS "/usr" "amd64" scenario_B) "/usr").
  - unfold all_deps_ok, kinds_ok. apply (bool_decide_unpack _). by vm_compute.
  - intros H. by destruct H.
  - apply (bool_decide_unpack _). by vm_compute.
  - reflexivity.
Defined.

(** ** The maintainer's name *)

Lemma reemail_match_no_lt s : contains "<" s = false -> reemail_match s = None.
Proof.
  induction s as [|c s IH]; simpl; [done|].
  destruct (Ascii.eqb c "<") eqn:Hc; [done|]. intros Hs.
  destruct (Ascii.eqb c " "); [by rewrite IH | done].
Qed.

Lemma reemail_sub_no_lt s : contains "<" s = false -> reemail_sub 0 s = s.
Proof.
  induction s as [|c s IH]; [done|]. intros Hs.
  cbn [reemail_sub]. rewrite (reemail_match_no_lt _ Hs).
  simpl in Hs. destruct (Ascii.eqb c "<"); [done|]. by rewrite IH.
Qed.

Lemma dot_lazy_gt_address email rest :
  contains ">" email = false -> contains (ascii_of_nat 10) email = false ->
  dot_lazy_gt (email ++ String ">" rest) = Some (S (String.length email)).
Proof.
  induction email as [|c email IH]; [done|].
  change (String c email ++ String ">" rest)
    with (String c (email ++ String ">" rest)).
  simpl. destruct (Ascii.eqb c ">"); [done|].
  destruct (Ascii.eqb c (ascii_of_nat 10)); [done|].
  intros H1 H2. by rewrite IH.
Qed.

Lemma reemail_match_address n email rest :
  contains ">" email = false -> contains (ascii_of_nat 10) email = false ->
  reemail_match (spaces n ++ String "<" (email ++ String ">" rest))
  = Some (n + S (S (String.length email)))%nat.
Proof.
  intros H1 H2. induction n as [|n IH].
  - change (spaces 0 ++ String "<" (email ++ String ">" rest))
      with (String "<" (email ++ String ">" rest)).
    simpl. by rewrite dot_lazy_gt_address.
  - change (spaces (S n) ++ String "<" (email ++ String ">" rest))
      with (String " " (spaces n ++ String "<" (email ++ String ">" rest))).
    cbn [reemail_match]. simpl (Ascii.eqb _ _). by rewrite IH.
Qed.

Lemma reemail_match_name name rest :
  name <> EmptyString -> contains "<" name = false ->
  ends_with_space name = false -> reemail_match (name ++ rest) = None.
Proof.
  induction name as [|c name IH]; [done|]. intros _.
  change (String c name ++ rest) with (String c (name ++ rest)).
  simpl. destruct (Ascii.eqb c "<") eqn:Hlt; [done|].
  destruct (Ascii.eqb c " ") eqn:Hsp; [|done].
  destruct name as [|c' name]; [done|]. intros H1 H2.
  by rewrite IH.
Qed.

Lemma string_length_app (s t : string) :
  String.length (s ++ t) = (String.length s + String.length t)%nat.
Proof.
  induction s as [|c s IH]; [done|].
  change (String c s ++ t) with (String c (s ++ t)). simpl. by rewrite IH.
Qed.

Lemma spaces_length n : String.length (spaces n) = n.
Proof. induction n as [|n IH]; simpl; [done | by rewrite IH]. Qed.

Lemma reemail_sub_skip s t :
  reemail_sub (String.length s) (s ++ t) = reemail_sub 0 t.
Proof.
  induction s as [|c s IH]; [done|].
  change (String c s ++ t) with (String c (s ++ t)). simpl. exact IH.
Qed.

Lemma reemail_sub_whole_match s :
  s <> EmptyString -> reemail_match s = Some (String.length s) ->
  reemail_sub 0 s = EmptyString.
Proof.
  destruct s as [|c s]; [done|]. intros _ Hm.
  cbn [reemail_sub]. rewrite Hm. simpl.
  rewrite <- (string_app_empty_r s) at 2. by rewrite reemail_sub_skip.
Qed.

Lemma reemail_sub_address name n email :
  contains "<" name = false -> ends_with_space name = false ->
  contains ">" email = false -> contains (ascii_of_nat 10) email = false ->
  reemail_sub 0
    (name ++ spaces n ++ String "<" (email ++ String ">" EmptyString))
  = name.
Proof.
  intros Hlt Hsp Hgt Hnl. induction name as [|c name IH].
  - change (EmptyString ++ spaces n ++ String "<" (email ++ String ">" EmptyString))
      with (spaces n ++ String "<" (email ++ String ">" EmptyString)).
    apply reemail_sub_whole_match.
    + by destruct n.
    + rewrite reemail_match_address by done. f_equal.
      rewrite string_length_app, spaces_length. simpl.
      rewrite string_length_app. simpl. lia.
  - pose proof (reemail_match_name (String c name)
                  (spaces n ++ String "<" (email ++ String ">" EmptyString)))
      as Hnone.
    change (String c name ++ spaces n ++ String "<" (email ++ String ">" EmptyString))
      with (String c (name ++ spaces n ++ String "<" (email ++ String ">" EmptyString)))
      in *.
    cbn [reemail_sub]. rewrite Hnone by done. f_equal. apply IH.
    + simpl in Hlt. by destruct (Ascii.eqb c "<").
    + destruct name; [done | exact Hsp].
Qed.

(** X17: [set_maint] keeps the maintainer's name and drops the address: for
    a name without '<' that does not end in a space, followed by any
    number of spaces and an address in angle brackets (an address without
    '>' and without a newline), what is stored is the name.  Every string
    without '<' is stored as it is. *)
Theorem set_maint_strips_address (name email : string) (n : nat) (e : Excuse) :
  (contains "<" name = false -> ends_with_space name = false ->
   contains ">" email = false -> contains (ascii_of_nat 10) email = false ->
   maint (set_maint (name ++ spaces n ++ "<" ++ email ++ ">") e) = Some name)
  /\ (contains "<" name = false -> maint (set_maint name e) = Some name).
Proof.
  split.
  - intros Hlt Hsp Hgt Hnl. simpl. f_equal. by apply reemail_sub_address.
  - intros Hlt. simpl. f_equal. by apply reemail_sub_no_lt.
Qed.

Lemma set_maint_strips_address_witness :
  maint (set_maint "Jo Doe <jo@example.org>" (__init__ "foo")) = Some "Jo Doe"
  /\ maint (set_maint "Jo Doe " (__init__ "foo")) = Some "Jo Doe ".
Proof.
  split.
  - apply (proj1 (set_maint_strips_address "Jo Doe" "jo@example.org" 1
                    (__init__ "foo")));
      reflexivity.
  - apply (proj2 (set_maint_strips_address "Jo Doe " EmptyString 0
                    (__init__ "foo"))).
    reflexivity.
Defined.

(** ** The name *)

(** X18: no call changes the name: whatever calls were made since
    [__init__(item)], the record's sort key ends in [item] and the document
    has "item-name" equal to [item]. *)
Theorem name_is_never_changed (cs : list call) (item source : string) :
  let e := run_calls cs (__init__ item) in
  name e = item
  /\ snd (sortkey e) = item
  /\ dict_get "item-name" (excusedata_of e source) = Some (VStr item).
Proof.
  intros e.
  assert (He : name e = item) by apply run_calls_name.
  split; [done|]. split.
  - unfold sortkey. by destruct (daysold e).
  - dict_enter. by rewrite He.
Qed.

(** ** Invalidated dependencies and bugs *)

(** X19: after [invalidate_dependency(dep)] the document has
    "invalidated-by-other-package" true and a dependencies sub-document
    whose "blocked-by" list holds [dep] and whose "migrate-after" list does
    not; invalidating the same name again changes nothing, and the order
    of two invalidations does not matter. *)
Theorem invalidate_dependency_blocks (dep dep' source : string) (e : Excuse) :
  let e' := invalidate_dependency dep e in
  dict_get "invalidated-by-other-package" (excusedata_of e' source)
  = Some (VBool true)
  /\ dict_get "dependencies" (excusedata_of e' source)
     = Some (VDict (dependencies_data e'))
  /\ dep ∈ doc_strs "blocked-by" (dependencies_data e')
  /\ (dep ∉ doc_strs "migrate-after" (dependencies_data e'))
  /\ invalidate_dependency dep e' = e'
  /\ invalidate_dependency dep' e'
     = invalidate_dependency dep (invalidate_dependency dep' e).
Proof.
  intros e'.
  assert (Ht : set_truthy (all_invalid_deps e') = true)
    by apply set_truthy_union_singleton.
  split; [by rewrite excusedata_of_invalidated, Ht|].
  split.
  { rewrite excusedata_of_dependencies, Ht. by rewrite orb_true_r. }
  split.
  { unfold doc_strs. rewrite dependencies_data_blocked_by, Ht.
    rewrite value_strs_VStrs. apply sorted_set_elem_of. simpl.
    apply elem_of_union_r. by apply elem_of_singleton. }
  split.
  { unfold doc_strs. rewrite dependencies_data_migrate_after. cbv zeta.
    destruct (list_truthy _); [|apply not_elem_of_nil].
    rewrite value_strs_VStrs, sorted_set_elem_of, elem_of_difference.
    intros [_ Hn]. apply Hn. simpl.
    apply elem_of_union_r. by apply elem_of_singleton. }
  split.
  - unfold invalidate_dependency. simpl.
    rewrite <- (assoc_L (∪)). by rewrite (idemp_L (∪) {[ dep ]}).
  - unfold invalidate_dependency. simpl.
    rewrite <- !(assoc_L (∪)). by rewrite (comm_L (∪) {[ dep ]}).
Qed.

(** X20: [setbugs] only ever adds: each call unions its arguments into the
    two sets, so two calls amount to one call with the unions, and a bug
    once recorded stays recorded. *)
Theorem setbugs_accumulates (o1 n1 o2 n2 : gset string) (e : Excuse) :
  setbugs o2 n2 (setbugs o1 n1 e) = setbugs (o1 ∪ o2) (n1 ∪ n2) e
  /\ oldbugs e ⊆ oldbugs (setbugs o1 n1 e)
  /\ newbugs e ⊆ newbugs (setbugs o1 n1 e)
  /\ o1 ⊆ oldbugs (setbugs o1 n1 e)
  /\ n1 ⊆ newbugs (setbugs o1 n1 e).
Proof.
  split.
  { unfold setbugs. simpl. by rewrite !(assoc_L (∪)). }
  simpl. repeat split.
  - apply union_subseteq_l.
  - apply union_subseteq_l.
  - apply union_subseteq_r.
  - apply union_subseteq_r.
Qed.
